(** * ScreenMonitorClient: the change-detection loop of [main.py]

    A shallow embedding of [ScreenMonitorClient.detect_motion] and
    [ScreenMonitorClient.check_screen_change], together with the
    properties the specification states about them.

    - Pictures are numpy arrays: a shape and a pixel accessor.
    - The OpenCV entry points whose bodies live outside the repository are
      an interface ([OpenCV]) with the part of their contract the code
      relies on; [absdiff], [threshold] and [count_nonzero] are written out.
    - The method bodies run in a small monad over the client's world
      (the attribute [previous_screenshot], the files on disk, a journal of
      the observable actions) with Python's exceptions as a result type. *)

From stdpp Require Import gmap strings list.
From Stdlib Require Import ZArith Lia.

Local Open Scope Z_scope.

(** ** Pictures *)

(** A single-channel 8-bit array, as [cv2.cvtColor(.., COLOR_BGR2GRAY)]
    returns it: [shape = (rows, cols)]. *)
Record Gray := MkGray {
  rows : Z;
  cols : Z;
  px : Z → Z → Z
}.

(** A three-channel array, as [cv2.imread] returns it. *)
Record Color := MkColor {
  crows : Z;
  ccols : Z;
  bgr : Z → Z → Z * Z * Z
}.

Definition shape (g : Gray) : Z * Z := (rows g, cols g).

(** Row-major list of the positions of an array. *)
Definition indices (g : Gray) : list (Z * Z) :=
  i ← seqZ 0 (rows g); pair i <$> seqZ 0 (cols g).

(** [saturate_cast<uchar>] *)
Definition saturate_u8 (z : Z) : Z := Z.max 0 (Z.min 255 z).

(** [cv2.absdiff]: element-wise [|a - b|]; arrays of different sizes are
    rejected with [cv2.error] ([None]). *)
Definition absdiff (a b : Gray) : option Gray :=
  if decide (shape a = shape b)
  then Some (MkGray (rows a) (cols a)
               (λ i j, saturate_u8 (Z.abs (px a i j - px b i j))))
  else None.

(** [cv2.threshold(src, thresh, maxval, cv2.THRESH_BINARY)[1]] *)
Definition threshold (src : Gray) (thresh maxval : Z) : Gray :=
  MkGray (rows src) (cols src)
    (λ i j, if bool_decide (thresh < px src i j) then maxval else 0).

(** [np.count_nonzero] *)
Definition count_nonzero (g : Gray) : nat :=
  length (filter (λ p, px g p.1 p.2 ≠ 0) (indices g)).

(** ** The OpenCV interface

    [file] is what a file on disk holds. [imdecode] is the decoder behind
    [cv2.imread]; [None] is the [None] that [imread] returns for a file it
    cannot decode. [resize] takes [dsize = (width, height)]. The partial
    operations answer [None] where OpenCV raises [cv2.error]. *)
Class OpenCV := {
  file : Type;
  imdecode : file → option Color;
  cvtColor : Color → Gray;
  resize : Gray → Z * Z → option Gray;
  GaussianBlur : Gray → option Gray;
  imdecode_nonempty img f :
    imdecode f = Some img → 0 < crows img ∧ 0 < ccols img;
  cvtColor_shape img :
    shape (cvtColor img) = (crows img, ccols img);
  resize_shape g w h :
    0 < rows g → 0 < cols g → 0 < w → 0 < h →
    ∃ g', resize g (w, h) = Some g' ∧ shape g' = (h, w);
  GaussianBlur_shape g :
    0 < rows g → 0 < cols g →
    ∃ g', GaussianBlur g = Some g' ∧ shape g' = shape g
}.

(** ** Exceptions and results *)

Inductive exn :=
  | ValueError
  | PermissionError
  | ConnectionError
  | FileNotFoundError
  | NotFound          (* discord.NotFound *)
  | Forbidden         (* discord.Forbidden *)
  | HTTPException     (* discord.HTTPException, neither of the two above *)
  | InvalidData       (* discord.InvalidData *)
  | ScreenShotError   (* mss.ScreenShotError *)
  | Cv2Error.         (* cv2.error *)

Inductive result (A : Type) :=
  | Returned (a : A)
  | Raised (e : exn).
Arguments Returned {A} a.
Arguments Raised {A} e.

(** ** The journal of observable actions

    What a tick does to its surroundings, in order: the files it reads and
    removes, the calls it makes to discord, and the lines it logs. *)

Inductive event :=
  | Imread (path : string)                 (* cv2.imread(path) *)
  | DifferingPixels (non_zero_count : nat) (* "Differing pixels: n" *)
  | FirstScreenshot                        (* "First screenshot captured." *)
  | FetchChannel (channel_id : Z)          (* fetch_channel is called *)
  | Sent (channel : Z) (text : string) (attachment : string)
                                           (* channel.send delivered *)
  | MotionSent                   (* "Motion detected! Screenshot sent." *)
  | NoMotion                     (* "No significant motion detected." *)
  | Removed (path : string)                (* os.remove(path) *)
  | ErrorLogged (error : exn).             (* "An error occurred: ..." *)

(** ** The world of one client

    The attribute [self.previous_screenshot], the files of the working
    directory and the journal; [F] is what a file holds. *)
Record World (F : Type) := MkWorld {
  previous_screenshot : option string;
  files : gmap string F;
  journal : list event
}.
Arguments MkWorld {F} _ _ _.
Arguments previous_screenshot {F} _.
Arguments files {F} _.
Arguments journal {F} _.

Section Client.
Context `{cv : OpenCV}.

Definition M (A : Type) : Type := World file → result A * World file.

Definition ret {A} (a : A) : M A := λ w, (Returned a, w).

Definition bind {A B} (m : M A) (k : A → M B) : M B :=
  λ w, match m w with
       | (Returned a, w') => k a w'
       | (Raised e, w') => (Raised e, w')
       end.

Definition raise {A} (e : exn) : M A := λ w, (Raised e, w).

(** [try: body / except classes: handler]; an exception outside [classes]
    passes through. *)
Definition try_except {A} (body : M A) (classes : exn → bool)
    (handler : exn → M A) : M A :=
  λ w, match body w with
       | (Returned a, w') => (Returned a, w')
       | (Raised e, w') => if classes e then handler e w' else (Raised e, w')
       end.

Definition emit (ev : event) : M unit :=
  λ w, (Returned (),
        MkWorld (previous_screenshot w) (files w) (journal w ++ [ev])).

Definition get_previous : M (option string) :=
  λ w, (Returned (previous_screenshot w), w).

Definition set_previous (p : string) : M unit :=
  λ w, (Returned (), MkWorld (Some p) (files w) (journal w)).

(** [w] with [evs] appended to its journal. *)
Definition logged (w : World file) (evs : list event) : World file :=
  MkWorld (previous_screenshot w) (files w) (journal w ++ evs).

(** What [cv2.imread(path)] answers in [w]: [None] for a missing file and
    for one that does not decode. *)
Definition decode_at (w : World file) (path : string) : option Color :=
  files w !! path ≫= imdecode.

(** [cv2.imread(path)] *)
Definition imread (path : string) : M (option Color) :=
  λ w, (Returned (decode_at w path), logged w [Imread path]).

(** [os.path.exists(path)] *)
Definition path_exists (path : string) : M bool :=
  λ w, (Returned (bool_decide (is_Some (files w !! path))), w).

(** [os.remove(path)] *)
Definition os_remove (path : string) : M unit :=
  λ w, match files w !! path with
       | Some _ => (Returned (),
                    MkWorld (previous_screenshot w) (delete path (files w))
                            (journal w ++ [Removed path]))
       | None => (Raised FileNotFoundError, w)
       end.

(** An OpenCV call that raises [cv2.error] when it fails. *)
Definition cv2 {A} (o : option A) : M A :=
  match o with
  | Some a => ret a
  | None => raise Cv2Error
  end.

End Client.

Arguments M {cv} A.

#[export] Instance M_ret `{cv : OpenCV} : MRet M := @ret cv.
#[export] Instance M_bind `{cv : OpenCV} : MBind M := λ A B k m, bind m k.

Section Comparator.
Context `{cv : OpenCV}.

(** ** [ScreenMonitorClient.detect_motion] *)
Definition detect_motion (image_path1 image_path2 : string)
    (pixel_diff_threshold : Z) : M bool :=
  image1 ← imread image_path1;
  image2 ← imread image_path2;
  match image1, image2 with
  | Some image1, Some image2 =>
      let gray1 := cvtColor image1 in
      let gray2 := cvtColor image2 in
      gray2 ← (if decide (shape gray1 ≠ shape gray2)
                then cv2 (resize gray2 (cols gray1, rows gray1))
                else ret gray2);
      gray1_blur ← cv2 (GaussianBlur gray1);
      gray2_blur ← cv2 (GaussianBlur gray2);
      diff ← cv2 (absdiff gray1_blur gray2_blur);
      let thresh := threshold diff 25 255 in
      let non_zero_count := count_nonzero thresh in
      emit (DifferingPixels non_zero_count);;
      ret (bool_decide (pixel_diff_threshold < Z.of_nat non_zero_count))
  | _, _ => raise ValueError
  end.

End Comparator.
Arguments detect_motion : simpl never.

(** ** What the surroundings answer during one tick

    [shot]: the path and bytes [sct.shot] writes, or the exception it
    raises; [fetch_channel]: the channel [self.fetch_channel] resolves to;
    [send]: whether [channel.send] delivers. *)
Record Oracle (F : Type) := MkOracle {
  shot : result (string * F);
  fetch_channel : result (option Z);
  send : result unit
}.
Arguments MkOracle {F} _ _ _.
Arguments shot {F} _.
Arguments fetch_channel {F} _.
Arguments send {F} _.

Definition PIXEL_DIFF_THRESHOLD : Z := 25000.

Section Loop.
Context `{cv : OpenCV}.
(** [DISCORD_CHANNEL_ID] is read from the process environment. *)
Variable DISCORD_CHANNEL_ID : Z.

(** [ScreenMonitorClient.__init__] *)
Definition init (disk : gmap string file) : World file := MkWorld None disk [].

(** [ScreenMonitorClient.capture_screen] *)
Definition capture_screen (o : Oracle file) : M string :=
  λ w, match shot o with
       | Returned (screenshot_path, bytes) =>
           (Returned screenshot_path,
            MkWorld (previous_screenshot w)
                    (<[screenshot_path := bytes]> (files w)) (journal w))
       | Raised e => (Raised e, w)
       end.

(** [await self.fetch_channel(DISCORD_CHANNEL_ID)] *)
Definition await_fetch_channel (o : Oracle file) : M (option Z) :=
  emit (FetchChannel DISCORD_CHANNEL_ID);;
  match fetch_channel o with
  | Returned channel => ret channel
  | Raised e => raise e
  end.

(** [open(path, "rb")] *)
Definition open_rb (path : string) : M unit :=
  λ w, match files w !! path with
       | Some _ => (Returned (), w)
       | None => (Raised FileNotFoundError, w)
       end.

(** [await channel.send(text, file=picture)] *)
Definition await_send (o : Oracle file) (channel : Z) (text attachment : string)
    : M unit :=
  match send o with
  | Returned _ => emit (Sent channel text attachment)
  | Raised e => raise e
  end.

(** The classes of the three [except discord.*] clauses around
    [fetch_channel]. *)
Definition is_discord_http (e : exn) : bool :=
  match e with
  | NotFound | Forbidden | HTTPException => true
  | _ => false
  end.

(** [except (ValueError, PermissionError, ConnectionError)] *)
Definition is_tick_error (e : exn) : bool :=
  match e with
  | ValueError | PermissionError | ConnectionError => true
  | _ => false
  end.

(** [ScreenMonitorClient.check_screen_change], one run of the loop body *)
Definition check_screen_change (o : Oracle file) : M unit :=
  current_screenshot ← capture_screen o;
  try_except
    (previous ← get_previous;
     match previous with
     | None =>
         set_previous current_screenshot;;
         emit FirstScreenshot
     | Some previous =>
         motion_detected ←
           detect_motion previous current_screenshot PIXEL_DIFF_THRESHOLD;
         (if motion_detected : bool then
            channel ← try_except (await_fetch_channel o) is_discord_http
                        (λ exc, match exc with
                                | NotFound => raise ValueError
                                | Forbidden => raise PermissionError
                                | _ => raise ConnectionError
                                end);
            match channel with
            | Some channel =>
                open_rb current_screenshot;;
                await_send o channel "Motion detected! Here's the screenshot:"
                  current_screenshot;;
                emit MotionSent
            | None => raise ValueError
            end
          else emit NoMotion);;
         present ← path_exists previous;
         (if present : bool then os_remove previous else ret ());;
         set_previous current_screenshot
     end)
    is_tick_error
    (λ error,
       emit (ErrorLogged error);;
       present ← path_exists current_screenshot;
       if present : bool then os_remove current_screenshot else ret ()).

(** The loop: one tick per oracle. A tick that raises leaves the world as
    it was at the raise; whether the scheduler of [tasks.loop] starts
    another tick after it is not decided here: [run] goes on, so what holds
    of every [run] holds of the runs that stop. *)
Fixpoint run (os : list (Oracle file)) (w : World file) : World file :=
  match os with
  | [] => w
  | o :: os => run os (check_screen_change o w).2
  end.

Definition capture_failed (o : Oracle file) : Prop :=
  ∃ e, shot o = Raised e.

(** The world a steady tick ends in when nothing fails: the old file is
    removed if it is there, and the capture becomes the previous
    screenshot. *)
Definition rotated (w : World file) (P cur : string) (bytes : file)
    (evs : list event) : World file :=
  match <[cur := bytes]> (files w) !! P with
  | Some _ =>
      MkWorld (Some cur) (delete P (<[cur := bytes]> (files w)))
              (journal w ++ evs ++ [Removed P])
  | None =>
      MkWorld (Some cur) (<[cur := bytes]> (files w)) (journal w ++ evs)
  end.

(** The error the tick handles when the channel does not resolve: the
    three translated discord errors, and the [None] channel. *)
Definition resolution_error (o : Oracle file) : option exn :=
  match fetch_channel o with
  | Raised NotFound => Some ValueError
  | Raised Forbidden => Some PermissionError
  | Raised HTTPException => Some ConnectionError
  | Returned None => Some ValueError
  | _ => None
  end.

(** [m] never turns a stored [previous_screenshot] into [None]. *)
Definition keeps_previous {A} (m : M A) : Prop :=
  ∀ w, is_Some (previous_screenshot w) →
       is_Some (previous_screenshot (m w).2).

(** The world right after [capture_screen] wrote [bytes] to [path]. *)
Definition captured (w : World file) (path : string) (bytes : file)
    : World file :=
  MkWorld (previous_screenshot w) (<[path := bytes]> (files w)) (journal w).

End Loop.

(** ** The comparator in the specification's words

    Luminance of both samples; the second resampled to the first's
    dimensions when they differ; both blurred; [differingUnits] is the
    number of elements whose absolute difference exceeds 25. *)
Definition differs_at (a b : Gray) (p : Z * Z) : Prop :=
  25 < Z.abs (px a p.1 p.2 - px b p.1 p.2).

#[export] Instance differs_at_dec a b p : Decision (differs_at a b p).
Proof. unfold differs_at. apply _. Defined.

(** Steps 1 to 3: the two blurred luminance grids. *)
Definition blurred `{cv : OpenCV} (a b : Color) : option (Gray * Gray) :=
  let la := cvtColor a in
  let lb := cvtColor b in
  lb ← (if decide (shape la = shape lb) then Some lb
        else resize lb (cols la, rows la));
  ba ← GaussianBlur la;
  bb ← GaussianBlur lb;
  Some (ba, bb).

(** Steps 4 to 6. *)
Definition differingUnits `{cv : OpenCV} (a b : Color) : option nat :=
  '(ba, bb) ← blurred a b;
  Some (length (filter (differs_at ba bb) (indices ba))).

(** ** A reference implementation of the OpenCV interface

    Used to run the model on concrete pictures: a file either holds a
    picture or bytes that are no picture; luminance by the 15-bit
    fixed-point weights; nearest-neighbour resampling; the 5x5 binomial
    kernel [1 4 6 4 1] with reflected borders. *)

Definition ref_imdecode (f : option Color) : option Color :=
  match f with
  | Some img =>
      if bool_decide (0 < crows img ∧ 0 < ccols img)
      then Some img else None
  | None => None
  end.

Definition ref_cvtColor (img : Color) : Gray :=
  MkGray (crows img) (ccols img)
    (λ i j, let '(b, g, r) := bgr img i j in
            Z.shiftr (b * 3735 + g * 19235 + r * 9798 + 16384) 15).

Definition ref_resize (g : Gray) (dsize : Z * Z) : option Gray :=
  let '(w, h) := dsize in
  if bool_decide (0 < rows g ∧ 0 < cols g ∧ 0 < w ∧ 0 < h)
  then Some (MkGray h w (λ i j, px g (i * rows g / h) (j * cols g / w)))
  else None.

(** [BORDER_REFLECT_101]: index [p] folded back into [0, len). *)
Fixpoint reflect101 (fuel : nat) (len : Z) (p : Z) : Z :=
  match fuel with
  | O => 0
  | S fuel =>
      if bool_decide (len ≤ 1) then 0
      else if bool_decide (p < 0) then reflect101 fuel len (- p)
      else if bool_decide (len ≤ p) then reflect101 fuel len (2 * (len - 1) - p)
      else p
  end.

Definition binomial5 : list (Z * Z) :=
  [(-2, 1); (-1, 4); (0, 6); (1, 4); (2, 1)].

Definition ref_GaussianBlur (g : Gray) : option Gray :=
  if bool_decide (0 < rows g ∧ 0 < cols g)
  then Some (MkGray (rows g) (cols g)
    (λ i j,
       let at_ (di dj : Z) :=
         px g (reflect101 4 (rows g) (i + di))
              (reflect101 4 (cols g) (j + dj)) in
       let acc :=
         foldr (λ '(di, ki) s,
                  foldr (λ '(dj, kj) s, s + ki * kj * at_ di dj) s binomial5)
               0 binomial5 in
       Z.shiftr (acc + 128) 8))
  else None.

Lemma ref_imdecode_nonempty img f :
  ref_imdecode f = Some img → 0 < crows img ∧ 0 < ccols img.
Proof.
  destruct f as [c|]; simpl; [|done].
  case_bool_decide; [|done]. by intros [= <-].
Qed.

Lemma ref_cvtColor_shape img :
  shape (ref_cvtColor img) = (crows img, ccols img).
Proof. done. Qed.

Lemma ref_resize_shape g w h :
  0 < rows g → 0 < cols g → 0 < w → 0 < h →
  ∃ g', ref_resize g (w, h) = Some g' ∧ shape g' = (h, w).
Proof.
  intros. unfold ref_resize. rewrite bool_decide_eq_true_2 by done. eauto.
Qed.

Lemma ref_GaussianBlur_shape g :
  0 < rows g → 0 < cols g →
  ∃ g', ref_GaussianBlur g = Some g' ∧ shape g' = shape g.
Proof.
  intros. unfold ref_GaussianBlur. rewrite bool_decide_eq_true_2 by done. eauto.
Qed.

#[export] Instance ref_cv : OpenCV := {|
  file := option Color;
  imdecode := ref_imdecode;
  cvtColor := ref_cvtColor;
  resize := ref_resize;
  GaussianBlur := ref_GaussianBlur;
  imdecode_nonempty := ref_imdecode_nonempty;
  cvtColor_shape := ref_cvtColor_shape;
  resize_shape := ref_resize_shape;
  GaussianBlur_shape := ref_GaussianBlur_shape
|}.

(** A [rows] x [cols] picture of one colour. *)
Definition solid (r c : Z) (b g red : Z) : Color :=
  MkColor r c (λ _ _, (b, g, red)).

(** Pictures and a disk to run the model on. *)
Definition black (r c : Z) : Color := solid r c 0 0 0.
Definition white (r c : Z) : Color := solid r c 255 255 255.

Definition small_disk : gmap string (option Color) :=
  {[ "black.png" := Some (black 2 2);
     "white.png" := Some (white 2 2);
     "wide.png" := Some (white 1 3);
     "teal.png" := Some (solid 100 100 128 128 0);
     "teal2.png" := Some (solid 100 100 128 128 0);
     "torn.png" := None ]}.

Definition small_world : World (@file ref_cv) := MkWorld None small_disk [].

(** A client whose retained screenshot no longer decodes. *)
Definition torn_world : World (@file ref_cv) :=
  MkWorld (Some "torn.png") small_disk [].

(** A client in steady state with a black screen retained. *)
Definition steady_world : World (@file ref_cv) :=
  MkWorld (Some "before.png") {[ "before.png" := Some (black 160 160) ]} [].

(** A tick that captures a small black screen; discord answers. *)
Definition small_shot : Oracle (@file ref_cv) :=
  MkOracle (Returned ("shot.png", Some (black 2 2)))
           (Returned (Some 7)) (Returned ()).

(** A tick that captures a white screen, resolves the channel and fails to
    deliver with [discord.HTTPException]. *)
Definition send_fails : Oracle (@file ref_cv) :=
  MkOracle (Returned ("after.png", Some (white 160 160)))
           (Returned (Some 7)) (Raised HTTPException).

(** The same capture, with the channel not found. *)
Definition channel_missing : Oracle (@file ref_cv) :=
  MkOracle (Returned ("after.png", Some (white 160 160)))
           (Raised NotFound) (Returned ()).

(** ** What a tick is observed to do *)

Definition is_sent (ev : event) : bool :=
  match ev with
  | Sent _ _ _ => true
  | _ => false
  end.

(** The notifications of a journal: its [Sent] entries, in order. *)
Definition notifications (j : list event) : list event :=
  filter (λ ev, is_sent ev) j.

(** The file name [capture_screen] builds:
    [f"current_screen{uuid.uuid4()}.png"]. *)
Definition screenshot_name (uuid : string) : string :=
  "current_screen" +:+ uuid +:+ ".png".

(** The paths the captures of a list of ticks write. *)
Definition captured_paths {F} (os : list (Oracle F)) : list string :=
  omap (λ o, match shot o with
             | Returned (path, _) => Some path
             | Raised _ => None
             end) os.

(** [previous_screenshot], when set, names a file that is on disk. *)
Definition retained_on_disk {F} (w : World F) : Prop :=
  ∀ P, previous_screenshot w = Some P → is_Some (files w !! P).

(** The three ways a tick in steady state ends once its capture wrote
    [bytes] to [cur]: the capture replaces the previous screenshot [P]; the
    capture is removed by the error handler; an exception that the handler
    does not catch leaves the tick. *)
Inductive steady_outcome `{cv : OpenCV} (o : Oracle file) (w : World file)
    (P cur : string) (bytes : file) : result unit * World file → Prop :=
  | Rotated evs :
      notifications evs = [] ∨
      (∃ channel,
         fetch_channel o = Returned (Some channel) ∧ send o = Returned () ∧
         notifications evs
           = [Sent channel "Motion detected! Here's the screenshot:" cur]) →
      steady_outcome o w P cur bytes (Returned (), rotated w P cur bytes evs)
  | Discarded evs :
      notifications evs = [] →
      steady_outcome o w P cur bytes
        (Returned (),
         MkWorld (Some P) (delete cur (<[cur := bytes]> (files w)))
                 (journal w ++ evs))
  | Escaped e evs :
      is_tick_error e = false →
      (fetch_channel o = Raised e ∧ is_discord_http e = false) ∨
      send o = Raised e →
      notifications evs = [] →
      steady_outcome o w P cur bytes
        (Raised e,
         MkWorld (Some P) (<[cur := bytes]> (files w)) (journal w ++ evs)).

(** A tick that captures a white screen; discord answers. *)
Definition white_shot : Oracle (@file ref_cv) :=
  MkOracle (Returned ("after.png", Some (white 160 160)))
           (Returned (Some 7)) (Returned ()).

(** The same capture, with a channel of a type discord.py does not know. *)
Definition channel_garbled : Oracle (@file ref_cv) :=
  MkOracle (Returned ("after.png", Some (white 160 160)))
           (Raised InvalidData) (Returned ()).

(** A tick whose capture raises. *)
Definition no_display : Oracle (@file ref_cv) :=
  MkOracle (Raised ScreenShotError) (Returned (Some 7)) (Returned ()).

(** * Properties *)

(** ** Arrays *)

Lemma saturate_u8_gt z : 25 < saturate_u8 z ↔ 25 < z.
Proof. unfold saturate_u8. lia. Qed.

Lemma threshold_nonzero d i j :
  px (threshold d 25 255) i j ≠ 0 ↔ 25 < px d i j.
Proof.
  simpl. case_bool_decide; split; intros; try done; lia.
Qed.

Lemma absdiff_Some a b d :
  absdiff a b = Some d →
  shape a = shape b ∧ shape d = shape a ∧
  ∀ i j, px d i j = saturate_u8 (Z.abs (px a i j - px b i j)).
Proof.
  unfold absdiff. case_decide; [|done].
  intros [= <-]. done.
Qed.

Lemma absdiff_same_shape a b :
  shape a = shape b → is_Some (absdiff a b).
Proof. intros H. unfold absdiff. rewrite decide_True; eauto. Qed.

Lemma count_nonzero_differs a b d :
  absdiff a b = Some d →
  count_nonzero (threshold d 25 255) = length (filter (differs_at a b) (indices a)).
Proof.
  intros (Hab & Hd & Hpx)%absdiff_Some.
  unfold count_nonzero.
  assert (indices (threshold d 25 255) = indices a) as ->.
  { unfold indices. simpl. by injection Hd as -> ->. }
  f_equal. apply list_filter_iff. intros [i j].
  rewrite threshold_nonzero, Hpx, saturate_u8_gt. done.
Qed.

Lemma filter_differs_self a l : filter (differs_at a a) l = [].
Proof.
  induction l as [|p l IH]; [done|].
  rewrite filter_cons_False; [done|].
  unfold differs_at. rewrite Z.sub_diag. simpl. lia.
Qed.

(** ** Running [detect_motion] *)

Section ComparatorFacts.
Context `{cv : OpenCV}.

Lemma logged_logged (w : World file) evs evs' :
  logged (logged w evs) evs' = logged w (evs ++ evs').
Proof. unfold logged. simpl. by rewrite <- app_assoc. Qed.

Lemma decode_at_logged (w : World file) evs p :
  decode_at (logged w evs) p = decode_at w p.
Proof. done. Qed.

Lemma decoded_gray_nonempty (w : World file) p img :
  decode_at w p = Some img →
  0 < rows (cvtColor img) ∧ 0 < cols (cvtColor img).
Proof.
  unfold decode_at. intros H.
  destruct (files w !! p) as [f|]; [|done]. simpl in H.
  apply imdecode_nonempty in H.
  pose proof (cvtColor_shape img) as Hs. unfold shape in Hs.
  injection Hs as -> ->. done.
Qed.

(** On two files that decode, the pipeline runs to its end: the mask it
    counts is [threshold (absdiff ba bb) 25 255] on the blurred grids, and
    only the returned verdict looks at [pixel_diff_threshold]. *)
Lemma detect_motion_pipeline (w : World file) p1 p2 a b :
  decode_at w p1 = Some a → decode_at w p2 = Some b →
  ∃ ba bb d, blurred a b = Some (ba, bb) ∧ absdiff ba bb = Some d ∧
    ∀ t, detect_motion p1 p2 t w =
           (Returned (bool_decide
                        (t < Z.of_nat (count_nonzero (threshold d 25 255)))),
            logged w [Imread p1; Imread p2;
                      DifferingPixels (count_nonzero (threshold d 25 255))]).
Proof.
  intros Ha Hb.
  destruct (decoded_gray_nonempty _ _ _ Ha) as [Hra Hca].
  destruct (decoded_gray_nonempty _ _ _ Hb) as [Hrb Hcb].
  assert (∃ g2, (if decide (shape (cvtColor a) = shape (cvtColor b))
                 then Some (cvtColor b)
                 else resize (cvtColor b) (cols (cvtColor a), rows (cvtColor a)))
                = Some g2 ∧ shape g2 = shape (cvtColor a)) as (g2 & Hg2 & Hs2).
  { case_decide; [eauto|]. by apply resize_shape. }
  destruct (GaussianBlur_shape (cvtColor a) Hra Hca) as (b1 & Hb1 & Hsb1).
  assert (0 < rows g2 ∧ 0 < cols g2) as [Hr2 Hc2].
  { unfold shape in Hs2. injection Hs2 as -> ->. done. }
  destruct (GaussianBlur_shape g2 Hr2 Hc2) as (b2 & Hb2 & Hsb2).
  destruct (absdiff_same_shape b1 b2) as [d Hd]; [congruence|].
  exists b1, b2, d. split; [|split; [done|]].
  - unfold blurred. simpl. rewrite Hg2. simpl.
    rewrite Hb1. simpl. rewrite Hb2. done.
  - intros t. unfold detect_motion, mbind, M_bind, bind, imread. simpl.
    rewrite Ha, decode_at_logged, Hb.
    assert ((if decide (shape (cvtColor a) ≠ shape (cvtColor b))
             then cv2 (resize (cvtColor b)
                         (cols (cvtColor a), rows (cvtColor a)))
             else ret (cvtColor b)) = ret g2) as ->.
    { destruct (decide (shape (cvtColor a) = shape (cvtColor b))) as [e|ne].
      - rewrite decide_False by (intros ?; done). congruence.
      - rewrite decide_True by done. by rewrite Hg2. }
    unfold ret at 1. rewrite Hb1. simpl. rewrite Hb2. simpl.
    rewrite Hd. simpl.
    unfold ret, logged. simpl. by rewrite <- !app_assoc.
Qed.

Lemma detect_motion_decoded (w : World file) p1 p2 a b :
  decode_at w p1 = Some a → decode_at w p2 = Some b →
  ∃ n, differingUnits a b = Some n ∧
    ∀ t, detect_motion p1 p2 t w =
           (Returned (bool_decide (t < Z.of_nat n)),
            logged w [Imread p1; Imread p2; DifferingPixels n]).
Proof.
  intros Ha Hb.
  destruct (detect_motion_pipeline w p1 p2 a b Ha Hb)
    as (ba & bb & d & Hbl & Hd & Hrun).
  exists (count_nonzero (threshold d 25 255)). split; [|done].
  unfold differingUnits. rewrite Hbl. simpl.
  by rewrite (count_nonzero_differs _ _ _ Hd).
Qed.

Lemma detect_motion_above (w : World file) p1 p2 a b n t :
  decode_at w p1 = Some a → decode_at w p2 = Some b →
  differingUnits a b = Some n → t < Z.of_nat n →
  (detect_motion p1 p2 t w).1 = Returned true.
Proof.
  intros Ha Hb Hn Ht.
  destruct (detect_motion_decoded w p1 p2 a b Ha Hb) as (n' & Hn' & Hrun).
  assert (n' = n) as -> by congruence.
  rewrite Hrun. simpl. by rewrite bool_decide_eq_true_2.
Qed.

(** When either file does not decode, the call raises [ValueError] after
    both reads. *)
Lemma detect_motion_undecodable (w : World file) p1 p2 t :
  decode_at w p1 = None ∨ decode_at w p2 = None →
  detect_motion p1 p2 t w =
    (Raised ValueError, logged w [Imread p1; Imread p2]).
Proof.
  intros H. unfold detect_motion, mbind, M_bind, bind, imread. simpl.
  rewrite decode_at_logged, logged_logged. simpl.
  destruct (decode_at w p1), (decode_at w p2), H; done.
Qed.

End ComparatorFacts.



(** ** The comparator *)

Example detect_motion_black_white_3 :
  detect_motion "black.png" "white.png" 3 small_world
  = (Returned true,
     logged small_world
       [Imread "black.png"; Imread "white.png"; DifferingPixels 4]).
Proof. vm_compute. reflexivity. Qed.

Example detect_motion_black_white_4 :
  (detect_motion "black.png" "white.png" 4 small_world).1 = Returned false.
Proof. vm_compute. reflexivity. Qed.

Example detect_motion_black_wide :
  (detect_motion "black.png" "wide.png" 3 small_world).1 = Returned true.
Proof. vm_compute. reflexivity. Qed.

Example detect_motion_torn :
  (detect_motion "black.png" "torn.png" 3 small_world).1 = Raised ValueError.
Proof. vm_compute. reflexivity. Qed.

Example detect_motion_missing :
  (detect_motion "nowhere.png" "black.png" 3 small_world).1 = Raised ValueError.
Proof. vm_compute. reflexivity. Qed.

(** C1. For two decodable images the verdict is strict: [detect_motion]
    returns [True] exactly when the number of differing elements
    ([differingUnits]) is greater than the threshold; with the threshold
    equal to the count it returns [False], and with the count equal to the
    threshold plus one it returns [True]. *)
Theorem detect_motion_strict `{cv : OpenCV} (w : World file) p1 p2 a b :
  decode_at w p1 = Some a → decode_at w p2 = Some b →
  ∃ n : nat, differingUnits a b = Some n ∧
    (∀ t, (detect_motion p1 p2 t w).1 = Returned (bool_decide (Z.of_nat n > t))) ∧
    (∀ t, (detect_motion p1 p2 t w).1 = Returned true ↔ Z.of_nat n > t) ∧
    (∀ t, Z.of_nat n = t → (detect_motion p1 p2 t w).1 = Returned false) ∧
    (∀ t, Z.of_nat n = t + 1 → (detect_motion p1 p2 t w).1 = Returned true).
Proof.
  intros Ha Hb.
  destruct (detect_motion_decoded w p1 p2 a b Ha Hb) as (n & Hn & Hrun).
  exists n. split; [done|].
  assert (∀ t, (detect_motion p1 p2 t w).1
               = Returned (bool_decide (Z.of_nat n > t))) as Hv.
  { intros t. rewrite Hrun. simpl. f_equal. apply bool_decide_ext. lia. }
  split; [done|]. split; [|split].
  - intros t. rewrite Hv. split.
    + intros [= H]. by apply bool_decide_eq_true_1 in H.
    + intros H. by rewrite bool_decide_eq_true_2.
  - intros t Ht. rewrite Hv, bool_decide_eq_false_2; [done | lia].
  - intros t Ht. rewrite Hv, bool_decide_eq_true_2; [done | lia].
Qed.

Lemma detect_motion_strict_witness :
  decode_at small_world "black.png" = Some (black 2 2) ∧
  decode_at small_world "white.png" = Some (white 2 2) ∧
  ∃ n : nat, differingUnits (black 2 2) (white 2 2) = Some n ∧
    (∀ t, (detect_motion "black.png" "white.png" t small_world).1
          = Returned (bool_decide (Z.of_nat n > t))) ∧
    (∀ t, (detect_motion "black.png" "white.png" t small_world).1
          = Returned true ↔ Z.of_nat n > t) ∧
    (∀ t, Z.of_nat n = t →
          (detect_motion "black.png" "white.png" t small_world).1
          = Returned false) ∧
    (∀ t, Z.of_nat n = t + 1 →
          (detect_motion "black.png" "white.png" t small_world).1
          = Returned true).
Proof.
  split; [reflexivity|]. split; [reflexivity|].
  apply (detect_motion_strict (cv := ref_cv) small_world "black.png" "white.png");
    reflexivity.
Defined.

(** C5. [detect_motion] raises its load failure ([ValueError]) if and only
    if at least one of the two paths does not decode into an image; when
    both decode it raises nothing and returns a boolean. *)
Theorem detect_motion_load_error `{cv : OpenCV} (w : World file) p1 p2 t :
  ((detect_motion p1 p2 t w).1 = Raised ValueError ↔
     decode_at w p1 = None ∨ decode_at w p2 = None) ∧
  (is_Some (decode_at w p1) → is_Some (decode_at w p2) →
     ∃ verdict : bool, (detect_motion p1 p2 t w).1 = Returned verdict) ∧
  (∀ e, (detect_motion p1 p2 t w).1 = Raised e → e = ValueError).
Proof.
  destruct (decode_at w p1) as [a|] eqn:Ha;
    [destruct (decode_at w p2) as [b|] eqn:Hb|].
  - destruct (detect_motion_decoded w p1 p2 a b Ha Hb) as (n & _ & Hrun).
    rewrite Hrun. simpl. split; [|split].
    + split; [done | by intros [|]].
    + eauto.
    + done.
  - rewrite (detect_motion_undecodable w p1 p2 t) by (right; done). simpl.
    split; [|split].
    + split; [by right | done].
    + by intros _ [? ?].
    + by intros e [= <-].
  - rewrite (detect_motion_undecodable w p1 p2 t) by (left; done). simpl.
    split; [|split].
    + split; [by left | done].
    + by intros [? ?].
    + by intros e [= <-].
Qed.

Lemma detect_motion_load_error_witness :
  (detect_motion "black.png" "torn.png" 3 small_world).1 = Raised ValueError ∧
  decode_at small_world "torn.png" = None.
Proof.
  pose proof (detect_motion_load_error (cv := ref_cv) small_world
                "black.png" "torn.png" 3) as [H _].
  split; [apply H; right|]; reflexivity.
Defined.

(** C6. Two decodable images whose luminance grids differ in dimensions do
    not make the comparator fail: the second grid is resampled to the
    dimensions of the first, and the call returns a boolean. *)
Theorem detect_motion_resizes `{cv : OpenCV} (w : World file) p1 p2 a b t :
  decode_at w p1 = Some a → decode_at w p2 = Some b →
  shape (cvtColor a) ≠ shape (cvtColor b) →
  ∃ g2 ba bb,
    resize (cvtColor b) (cols (cvtColor a), rows (cvtColor a)) = Some g2 ∧
    shape g2 = shape (cvtColor a) ∧
    GaussianBlur (cvtColor a) = Some ba ∧
    GaussianBlur g2 = Some bb ∧
    (detect_motion p1 p2 t w).1 =
      Returned (bool_decide
                  (t < Z.of_nat (length (filter (differs_at ba bb) (indices ba))))).
Proof.
  intros Ha Hb Hne.
  destruct (decoded_gray_nonempty _ _ _ Ha) as [Hra Hca].
  destruct (decoded_gray_nonempty _ _ _ Hb) as [Hrb Hcb].
  destruct (resize_shape (cvtColor b) _ _ Hrb Hcb Hca Hra) as (g2 & Hg2 & Hs2).
  destruct (detect_motion_pipeline w p1 p2 a b Ha Hb)
    as (ba & bb & d & Hbl & Hd & Hrun).
  unfold blurred in Hbl. rewrite decide_False in Hbl by done.
  rewrite Hg2 in Hbl. simpl in Hbl.
  destruct (GaussianBlur (cvtColor a)) as [ba'|] eqn:Hba; [|done].
  destruct (GaussianBlur g2) as [bb'|] eqn:Hbb; [|done].
  simpl in Hbl. injection Hbl as -> ->.
  exists g2, ba, bb. repeat split; try done.
  by rewrite Hrun, (count_nonzero_differs _ _ _ Hd).
Qed.

Lemma detect_motion_resizes_witness :
  shape (ref_cvtColor (black 2 2)) ≠ shape (ref_cvtColor (white 1 3)) ∧
  ∃ g2 ba bb,
    ref_resize (ref_cvtColor (white 1 3)) (2, 2) = Some g2 ∧
    shape g2 = (2, 2) ∧
    ref_GaussianBlur (ref_cvtColor (black 2 2)) = Some ba ∧
    ref_GaussianBlur g2 = Some bb ∧
    (detect_motion "black.png" "wide.png" 3 small_world).1 =
      Returned (bool_decide
                  (3 < Z.of_nat (length (filter (differs_at ba bb) (indices ba))))).
Proof.
  assert (shape (ref_cvtColor (black 2 2)) ≠ shape (ref_cvtColor (white 1 3)))
    as Hne by (by intros [=]).
  split; [done|].
  apply (detect_motion_resizes (cv := ref_cv) small_world
           "black.png" "wide.png" (black 2 2) (white 1 3) 3);
    [reflexivity | reflexivity | done].
Defined.

(** C7. An element counts as differing if and only if the absolute
    difference of the two blurred luminance grids at that element is
    greater than 25. The constant is the same on every call: whatever
    [pixel_diff_threshold] is passed, the mask, its count and everything
    the call leaves behind are the same; the parameter only enters the
    returned verdict. *)
Theorem pixel_threshold_is_static `{cv : OpenCV} (w : World file) p1 p2 a b :
  decode_at w p1 = Some a → decode_at w p2 = Some b →
  ∃ ba bb d,
    blurred a b = Some (ba, bb) ∧ absdiff ba bb = Some d ∧
    (∀ i j, px (threshold d 25 255) i j ≠ 0 ↔
            Z.abs (px ba i j - px bb i j) > 25) ∧
    count_nonzero (threshold d 25 255)
      = length (filter (differs_at ba bb) (indices ba)) ∧
    ∀ t, (detect_motion p1 p2 t w).2 =
           logged w [Imread p1; Imread p2;
                     DifferingPixels (count_nonzero (threshold d 25 255))].
Proof.
  intros Ha Hb.
  destruct (detect_motion_pipeline w p1 p2 a b Ha Hb)
    as (ba & bb & d & Hbl & Hd & Hrun).
  exists ba, bb, d. repeat split; try done.
  - intros H%threshold_nonzero.
    destruct (absdiff_Some _ _ _ Hd) as (_ & _ & Hpx).
    rewrite Hpx, saturate_u8_gt in H. lia.
  - intros H. apply threshold_nonzero.
    destruct (absdiff_Some _ _ _ Hd) as (_ & _ & Hpx).
    rewrite Hpx, saturate_u8_gt. lia.
  - by apply count_nonzero_differs.
  - intros t. by rewrite Hrun.
Qed.

Lemma pixel_threshold_is_static_witness :
  ∃ ba bb d,
    blurred (black 2 2) (white 2 2) = Some (ba, bb) ∧ absdiff ba bb = Some d ∧
    (∀ i j, px (threshold d 25 255) i j ≠ 0 ↔
            Z.abs (px ba i j - px bb i j) > 25) ∧
    count_nonzero (threshold d 25 255)
      = length (filter (differs_at ba bb) (indices ba)) ∧
    ∀ t, (detect_motion "black.png" "white.png" t small_world).2 =
           logged small_world
             [Imread "black.png"; Imread "white.png";
              DifferingPixels (count_nonzero (threshold d 25 255))].
Proof.
  apply (pixel_threshold_is_static (cv := ref_cv) small_world
           "black.png" "white.png" (black 2 2) (white 2 2)); reflexivity.
Defined.

(** A difference of exactly 25 is not counted, one of 26 is. *)
Example threshold_boundary :
  px (threshold (MkGray 1 2 (λ _ j, if bool_decide (j = 0) then 25 else 26))
        25 255) 0 0 = 0 ∧
  px (threshold (MkGray 1 2 (λ _ j, if bool_decide (j = 0) then 25 else 26))
        25 255) 0 1 = 255.
Proof. done. Qed.

(** C9. On two identical decodable images the comparator counts 0
    differing elements, and for every threshold that is not negative it
    returns [False]. *)
Theorem detect_motion_identical `{cv : OpenCV} (w : World file) p1 p2 a t :
  decode_at w p1 = Some a → decode_at w p2 = Some a → 0 ≤ t →
  differingUnits a a = Some 0%nat ∧
  detect_motion p1 p2 t w =
    (Returned false, logged w [Imread p1; Imread p2; DifferingPixels 0]).
Proof.
  intros H1 H2 Ht.
  destruct (detect_motion_decoded w p1 p2 a a H1 H2) as (n & Hn & Hrun).
  assert (n = 0%nat) as ->.
  { unfold differingUnits, blurred in Hn. rewrite decide_True in Hn by done.
    simpl in Hn. destruct (GaussianBlur (cvtColor a)) as [ba|]; [|done].
    simpl in Hn. rewrite filter_differs_self in Hn. by injection Hn. }
  split; [done|]. rewrite Hrun. f_equal. f_equal.
  apply bool_decide_eq_false_2. lia.
Qed.

Lemma detect_motion_identical_witness :
  decode_at small_world "teal.png" = Some (solid 100 100 128 128 0) ∧
  decode_at small_world "teal2.png" = Some (solid 100 100 128 128 0) ∧
  differingUnits (solid 100 100 128 128 0) (solid 100 100 128 128 0)
    = Some 0%nat ∧
  detect_motion "teal.png" "teal2.png" 25000 small_world =
    (Returned false,
     logged small_world
       [Imread "teal.png"; Imread "teal2.png"; DifferingPixels 0]).
Proof.
  split; [reflexivity|]. split; [reflexivity|].
  apply (detect_motion_identical (cv := ref_cv) small_world
           "teal.png" "teal2.png"); [reflexivity | reflexivity | lia].
Defined.

(** C10. The verdict is antitone in the threshold: if [detect_motion]
    returns [True] at a threshold, it returns [True] at every smaller one,
    the count being fixed by the two images. *)
Theorem detect_motion_antitone `{cv : OpenCV} (w : World file) p1 p2 t t' :
  t ≤ t' →
  (detect_motion p1 p2 t' w).1 = Returned true →
  (detect_motion p1 p2 t w).1 = Returned true.
Proof.
  intros Htt.
  destruct (decode_at w p1) as [a|] eqn:Ha;
    [destruct (decode_at w p2) as [b|] eqn:Hb|].
  - destruct (detect_motion_decoded w p1 p2 a b Ha Hb) as (n & _ & Hrun).
    rewrite !Hrun. simpl. intros [= H]. apply bool_decide_eq_true_1 in H.
    rewrite bool_decide_eq_true_2; [done | lia].
  - by rewrite (detect_motion_undecodable w p1 p2 t') by (right; done).
  - by rewrite (detect_motion_undecodable w p1 p2 t') by (left; done).
Qed.

Lemma detect_motion_antitone_witness :
  1 ≤ 3 ∧
  (detect_motion "black.png" "white.png" 3 small_world).1 = Returned true ∧
  (detect_motion "black.png" "white.png" 1 small_world).1 = Returned true.
Proof.
  split; [lia|]. split; [reflexivity|].
  apply (detect_motion_antitone (cv := ref_cv) small_world
           "black.png" "white.png" 1 3); [lia | reflexivity].
Defined.

(** ** The reference implementation on pictures of one colour *)

Lemma length_bind_const {A B} (f : A → list B) (k : nat) (l : list A) :
  (∀ x, length (f x) = k) → length (l ≫= f) = (length l * k)%nat.
Proof.
  intros Hf. induction l as [|x l IH]; [done|].
  change ((x :: l) ≫= f) with (f x ++ (l ≫= f)).
  rewrite length_app, Hf, IH. simpl. lia.
Qed.

Lemma length_indices g :
  length (indices g) = (Z.to_nat (rows g) * Z.to_nat (cols g))%nat.
Proof.
  unfold indices.
  rewrite (length_bind_const _ (Z.to_nat (cols g))).
  - by rewrite length_seqZ.
  - intros i. by rewrite length_fmap, length_seqZ.
Qed.

Lemma filter_all {A} (P : A → Prop) `{∀ x, Decision (P x)} (l : list A) :
  (∀ x, P x) → filter P l = l.
Proof.
  intros HP. induction l as [|x l IH]; [done|].
  by rewrite filter_cons_True, IH.
Qed.

(** A black and a white picture of the same size differ everywhere. *)
Lemma ref_differingUnits_black_white r c :
  0 < r → 0 < c →
  differingUnits (cv := ref_cv) (black r c) (white r c)
  = Some (Z.to_nat r * Z.to_nat c)%nat.
Proof.
  intros Hr Hc. unfold differingUnits, blurred. simpl.
  rewrite decide_True by done. simpl.
  unfold ref_GaussianBlur. simpl.
  rewrite !bool_decide_eq_true_2 by done. simpl.
  rewrite filter_all.
  - by rewrite length_indices.
  - intros [i j]. unfold differs_at. simpl. vm_compute. done.
Qed.

(** ** Running one tick *)

Section TickFacts.
Context `{cv : OpenCV}.
Variable DISCORD_CHANNEL_ID : Z.

Abbreviation tick := (check_screen_change DISCORD_CHANNEL_ID).

Ltac run_tick :=
  unfold check_screen_change, try_except, capture_screen, get_previous,
    set_previous, await_fetch_channel, await_send, open_rb, path_exists,
    os_remove, emit, mbind, M_bind, bind, mret, M_ret, ret, raise;
  simpl.

Lemma detect_motion_world (w : World file) p1 p2 t :
  ∃ evs, (detect_motion p1 p2 t w).2 = logged w evs.
Proof.
  destruct (decode_at w p1) as [a|] eqn:Ha;
    [destruct (decode_at w p2) as [b|] eqn:Hb|].
  - destruct (detect_motion_decoded w p1 p2 a b Ha Hb) as (n & _ & Hrun).
    rewrite (Hrun t). eauto.
  - rewrite (detect_motion_undecodable w p1 p2 t) by (right; done). eauto.
  - rewrite (detect_motion_undecodable w p1 p2 t) by (left; done). eauto.
Qed.

(** A capture that raises ends the tick at once: [capture_screen] is
    called outside the [try]. *)
Lemma tick_capture_failed (w : World file) o e :
  shot o = Raised e → tick o w = (Raised e, w).
Proof. intros H. run_tick. by rewrite H. Qed.

Lemma tick_seeding (w : World file) o path bytes :
  previous_screenshot w = None → shot o = Returned (path, bytes) →
  tick o w =
    (Returned (),
     MkWorld (Some path) (<[path := bytes]> (files w))
             (journal w ++ [FirstScreenshot])).
Proof.
  destruct w as [pv fs jn]. simpl. intros -> Hs. run_tick. by rewrite Hs.
Qed.

(** The tick in which [detect_motion] raises its [ValueError]. *)
Lemma tick_load_error (w : World file) o P cur bytes :
  previous_screenshot w = Some P → shot o = Returned (cur, bytes) →
  decode_at (captured w cur bytes) P = None ∨
  decode_at (captured w cur bytes) cur = None →
  tick o w =
    (Returned (),
     MkWorld (Some P) (delete cur (<[cur := bytes]> (files w)))
       (journal w ++ [Imread P; Imread cur; ErrorLogged ValueError;
                      Removed cur])).
Proof.
  destruct w as [pv fs jn]. simpl. intros -> Hs Hd.
  pose proof (detect_motion_undecodable _ P cur PIXEL_DIFF_THRESHOLD Hd)
    as Hrun.
  unfold captured, logged in Hrun. simpl in Hrun.
  run_tick. rewrite Hs. simpl. rewrite Hrun.
  simpl. rewrite lookup_insert_eq. simpl. rewrite lookup_insert_eq.
  by rewrite <- !app_assoc.
Qed.

Lemma tick_no_motion (w : World file) o P cur bytes evs :
  previous_screenshot w = Some P → shot o = Returned (cur, bytes) →
  detect_motion P cur PIXEL_DIFF_THRESHOLD (captured w cur bytes)
    = (Returned false, logged (captured w cur bytes) evs) →
  tick o w = (Returned (), rotated w P cur bytes (evs ++ [NoMotion])).
Proof.
  destruct w as [pv fs jn]. simpl. intros -> Hs Hrun.
  unfold captured, logged in Hrun. simpl in Hrun.
  run_tick. rewrite Hs. simpl. rewrite Hrun. simpl.
  unfold rotated. simpl.
  destruct (<[cur:=bytes]> fs !! P) eqn:E; simpl; rewrite ?E; simpl;
    by rewrite <- !app_assoc.
Qed.

Lemma tick_motion_sent (w : World file) o P cur bytes evs channel :
  previous_screenshot w = Some P → shot o = Returned (cur, bytes) →
  detect_motion P cur PIXEL_DIFF_THRESHOLD (captured w cur bytes)
    = (Returned true, logged (captured w cur bytes) evs) →
  fetch_channel o = Returned (Some channel) → send o = Returned () →
  tick o w =
    (Returned (),
     rotated w P cur bytes
       (evs ++ [FetchChannel DISCORD_CHANNEL_ID;
                Sent channel "Motion detected! Here's the screenshot:" cur;
                MotionSent])).
Proof.
  destruct w as [pv fs jn]. simpl. intros -> Hs Hrun Hf Hsend.
  unfold captured, logged in Hrun. simpl in Hrun.
  run_tick. rewrite Hs. simpl. rewrite Hrun. simpl.
  rewrite Hf. simpl. rewrite lookup_insert_eq, Hsend. simpl.
  unfold rotated. simpl.
  destruct (<[cur:=bytes]> fs !! P) eqn:E; simpl; rewrite ?E; simpl;
    by rewrite <- !app_assoc.
Qed.

(** The tick in which [detect_motion] returns [True] and the channel
    does not resolve. *)
Lemma tick_resolution_failure (w : World file) o P cur bytes evs error :
  previous_screenshot w = Some P → shot o = Returned (cur, bytes) →
  detect_motion P cur PIXEL_DIFF_THRESHOLD (captured w cur bytes)
    = (Returned true, logged (captured w cur bytes) evs) →
  resolution_error o = Some error →
  tick o w =
    (Returned (),
     MkWorld (Some P) (delete cur (<[cur := bytes]> (files w)))
       (journal w ++ evs ++ [FetchChannel DISCORD_CHANNEL_ID; ErrorLogged error;
                             Removed cur])).
Proof.
  destruct w as [pv fs jn]. simpl. intros -> Hs Hrun Hres.
  unfold captured, logged in Hrun. simpl in Hrun.
  run_tick. rewrite Hs. simpl. rewrite Hrun. simpl.
  unfold resolution_error in Hres.
  destruct (fetch_channel o) as [[ch|]|[]]; simplify_eq; simpl;
    rewrite !lookup_insert_eq; simpl; rewrite ?lookup_insert_eq;
    by rewrite <- !app_assoc.
Qed.

(** The tick in which the channel resolves and [channel.send] raises. An
    exception of the three classes of the outer [except] is handled like
    a resolution failure; any other leaves the tick. *)
Lemma tick_delivery_failure (w : World file) o P cur bytes evs channel e :
  previous_screenshot w = Some P → shot o = Returned (cur, bytes) →
  detect_motion P cur PIXEL_DIFF_THRESHOLD (captured w cur bytes)
    = (Returned true, logged (captured w cur bytes) evs) →
  fetch_channel o = Returned (Some channel) → send o = Raised e →
  tick o w =
    if is_tick_error e
    then (Returned (),
          MkWorld (Some P) (delete cur (<[cur := bytes]> (files w)))
            (journal w ++ evs ++ [FetchChannel DISCORD_CHANNEL_ID; ErrorLogged e;
                                  Removed cur]))
    else (Raised e,
          MkWorld (Some P) (<[cur := bytes]> (files w))
            (journal w ++ evs ++ [FetchChannel DISCORD_CHANNEL_ID])).
Proof.
  destruct w as [pv fs jn]. simpl. intros -> Hs Hrun Hf Hsend.
  unfold captured, logged in Hrun. simpl in Hrun.
  run_tick. rewrite Hs. simpl. rewrite Hrun. simpl.
  rewrite Hf. simpl. rewrite lookup_insert_eq, Hsend. simpl.
  destruct e; simpl; rewrite ?lookup_insert_eq; simpl;
    rewrite ?lookup_insert_eq; by rewrite <- !app_assoc.
Qed.

End TickFacts.

(** ** [previous_screenshot] is never reset *)

Section KeepsPrevious.
Context `{cv : OpenCV}.
Variable DISCORD_CHANNEL_ID : Z.

Lemma keeps_ret {A} (a : A) : keeps_previous (mret a).
Proof. by intros w. Qed.

Lemma keeps_raise {A} e : keeps_previous (raise (A := A) e).
Proof. by intros w. Qed.

Lemma keeps_bind {A B} (m : M A) (k : A → M B) :
  keeps_previous m → (∀ a, keeps_previous (k a)) → keeps_previous (m ≫= k).
Proof.
  intros Hm Hk w Hw. unfold mbind, M_bind, bind.
  specialize (Hm w Hw). destruct (m w) as [[a|e] w']; simpl in *; [|done].
  by apply Hk.
Qed.

Lemma keeps_try_except {A} (body : M A) classes handler :
  keeps_previous body → (∀ e, keeps_previous (handler e)) →
  keeps_previous (try_except body classes handler).
Proof.
  intros Hb Hh w Hw. unfold try_except.
  specialize (Hb w Hw). destruct (body w) as [[a|e] w']; simpl in *; [done|].
  destruct (classes e); [by apply Hh | done].
Qed.

Lemma keeps_emit ev : keeps_previous (emit ev).
Proof. by intros w. Qed.

Lemma keeps_get_previous : keeps_previous get_previous.
Proof. by intros w. Qed.

Lemma keeps_set_previous p : keeps_previous (set_previous p).
Proof. intros w _. simpl. eauto. Qed.

Lemma keeps_imread p : keeps_previous (imread p).
Proof. by intros w. Qed.

Lemma keeps_path_exists p : keeps_previous (path_exists p).
Proof. by intros w. Qed.

Lemma keeps_os_remove p : keeps_previous (os_remove p).
Proof. intros w Hw. unfold os_remove. by destruct (files w !! p). Qed.

Lemma keeps_open_rb p : keeps_previous (open_rb p).
Proof. intros w Hw. unfold open_rb. by destruct (files w !! p). Qed.

Lemma keeps_cv2 {A} (o : option A) : keeps_previous (cv2 o).
Proof. destruct o; [apply keeps_ret | apply keeps_raise]. Qed.

Lemma keeps_capture_screen o : keeps_previous (capture_screen o).
Proof.
  intros w Hw. unfold capture_screen. by destruct (shot o) as [[? ?]|].
Qed.

Lemma keeps_await_fetch_channel o :
  keeps_previous (await_fetch_channel DISCORD_CHANNEL_ID o).
Proof.
  apply keeps_bind; [apply keeps_emit|]. intros _.
  destruct (fetch_channel o); [apply keeps_ret | apply keeps_raise].
Qed.

Lemma keeps_await_send o channel text attachment :
  keeps_previous (await_send o channel text attachment).
Proof.
  unfold await_send. destruct (send o); [apply keeps_emit | apply keeps_raise].
Qed.

Lemma keeps_detect_motion p1 p2 t : keeps_previous (detect_motion p1 p2 t).
Proof.
  intros w Hw. destruct (detect_motion_world w p1 p2 t) as [evs ->]. done.
Qed.

Create HintDb keeps.
#[local] Hint Resolve keeps_ret keeps_raise keeps_emit keeps_get_previous
  keeps_set_previous keeps_imread keeps_path_exists keeps_os_remove
  keeps_open_rb keeps_cv2 keeps_capture_screen keeps_await_fetch_channel
  keeps_await_send keeps_detect_motion : keeps.

Lemma keeps_check_screen_change o :
  keeps_previous (check_screen_change DISCORD_CHANNEL_ID o).
Proof.
  unfold check_screen_change.
  apply keeps_bind; [auto with keeps|]. intros current_screenshot.
  apply keeps_try_except.
  - apply keeps_bind; [auto with keeps|]. intros [previous|].
    + apply keeps_bind; [auto with keeps|]. intros [|].
      * apply keeps_bind.
        { apply keeps_bind.
          - apply keeps_try_except; [auto with keeps|].
            intros []; auto with keeps.
          - intros [channel|]; [|auto with keeps].
            repeat (apply keeps_bind; [auto with keeps | intros _]).
            auto with keeps. }
        intros _. apply keeps_bind; [auto with keeps|].
        intros [|]; apply keeps_bind; auto with keeps.
      * apply keeps_bind; [auto with keeps|].
        intros _. apply keeps_bind; [auto with keeps|].
        intros [|]; apply keeps_bind; auto with keeps.
    + apply keeps_bind; auto with keeps.
  - intros e. apply keeps_bind; [auto with keeps|]. intros _.
    apply keeps_bind; [auto with keeps|]. intros [|]; auto with keeps.
Qed.

(** After a tick, [previous_screenshot] is [None] only if it was [None]
    before and the capture raised. *)
Lemma tick_previous_None (w : World file) o :
  previous_screenshot (check_screen_change DISCORD_CHANNEL_ID o w).2 = None ↔
  previous_screenshot w = None ∧ capture_failed o.
Proof.
  split.
  - intros Hn.
    assert (previous_screenshot w = None) as Hw.
    { destruct (previous_screenshot w) as [p|] eqn:Hp; [|done].
      destruct (keeps_check_screen_change o w) as [q Hq]; [by rewrite Hp; eauto|].
      congruence. }
    split; [done|].
    destruct (shot o) as [[path bytes]|e] eqn:Hs; [|by exists e].
    rewrite (tick_seeding _ w o path bytes Hw Hs) in Hn. done.
  - intros [Hw [e He]]. by rewrite (tick_capture_failed _ w o e He).
Qed.

Lemma run_previous_None (os : list (Oracle file)) (w : World file) :
  previous_screenshot (run DISCORD_CHANNEL_ID os w) = None ↔
  previous_screenshot w = None ∧ Forall capture_failed os.
Proof.
  revert w. induction os as [|o os IH]; intros w; simpl.
  - split; [by intros ?; split | by intros [? _]].
  - rewrite IH, tick_previous_None, Forall_cons. tauto.
Qed.

End KeepsPrevious.

(** ** The loop *)

Example seeding_small_shot :
  check_screen_change 7 small_shot small_world
  = (Returned (),
     MkWorld (Some "shot.png") (<["shot.png" := Some (black 2 2)]> small_disk)
             [FirstScreenshot]).
Proof. reflexivity. Qed.

(** C2. A tick that starts with no previous screenshot and whose capture
    succeeds stores the captured path as the previous screenshot and does
    nothing else: the journal gains the one line "First screenshot
    captured.", so no file is read for a comparison and nothing is sent,
    whatever bytes the capture holds. *)
Theorem seeding_tick `{cv : OpenCV} (channel_id : Z) (w : World file) o
    path bytes :
  previous_screenshot w = None → shot o = Returned (path, bytes) →
  (check_screen_change channel_id o w).1 = Returned () ∧
  previous_screenshot (check_screen_change channel_id o w).2 = Some path ∧
  files (check_screen_change channel_id o w).2 = <[path := bytes]> (files w) ∧
  journal (check_screen_change channel_id o w).2
    = journal w ++ [FirstScreenshot].
Proof.
  intros Hp Hs. by rewrite (tick_seeding channel_id w o path bytes Hp Hs).
Qed.

Lemma seeding_tick_witness :
  previous_screenshot small_world = None ∧
  shot small_shot = Returned ("shot.png", Some (black 2 2)) ∧
  (check_screen_change 7 small_shot small_world).1 = Returned () ∧
  previous_screenshot (check_screen_change 7 small_shot small_world).2
    = Some "shot.png" ∧
  files (check_screen_change 7 small_shot small_world).2
    = <["shot.png" := Some (black 2 2)]> (files small_world) ∧
  journal (check_screen_change 7 small_shot small_world).2
    = journal small_world ++ [FirstScreenshot].
Proof.
  split; [reflexivity|]. split; [reflexivity|].
  apply (seeding_tick (cv := ref_cv) 7 small_world small_shot); reflexivity.
Defined.

(** A seeding tick on bytes that are no picture behaves the same. *)
Example seeding_torn_capture :
  previous_screenshot
    (check_screen_change (cv := ref_cv) 7
       (MkOracle (Returned ("shot.png", None)) (Returned (Some 7)) (Returned ()))
       small_world).2
  = Some "shot.png".
Proof. reflexivity. Qed.

(** In steady state, when [detect_motion] returns [True] and the channel
    does not resolve, the tick returns with the previous screenshot kept
    and the captured file removed. *)
Lemma resolution_failure_keeps_baseline `{cv : OpenCV} (channel_id : Z)
    (w : World file) o P cur bytes error :
  previous_screenshot w = Some P → shot o = Returned (cur, bytes) →
  (detect_motion P cur PIXEL_DIFF_THRESHOLD (captured w cur bytes)).1
    = Returned true →
  resolution_error o = Some error →
  (check_screen_change channel_id o w).1 = Returned () ∧
  previous_screenshot (check_screen_change channel_id o w).2 = Some P ∧
  files (check_screen_change channel_id o w).2 !! cur = None.
Proof.
  intros Hp Hs Hrun Hres.
  destruct (detect_motion_world (captured w cur bytes) P cur
              PIXEL_DIFF_THRESHOLD) as [evs Hevs].
  rewrite (tick_resolution_failure channel_id w o P cur bytes evs error);
    try done.
  - simpl. by rewrite lookup_delete_eq.
  - by rewrite <- Hrun, <- Hevs, <- surjective_pairing.
Qed.

(** The same for a [channel.send] that raises one of [ValueError],
    [PermissionError], [ConnectionError]; with any other exception the
    tick is left by that exception and the captured file stays. *)
Lemma delivery_failure_outcome `{cv : OpenCV} (channel_id : Z)
    (w : World file) o P cur bytes channel e :
  previous_screenshot w = Some P → shot o = Returned (cur, bytes) →
  (detect_motion P cur PIXEL_DIFF_THRESHOLD (captured w cur bytes)).1
    = Returned true →
  fetch_channel o = Returned (Some channel) → send o = Raised e →
  previous_screenshot (check_screen_change channel_id o w).2 = Some P ∧
  if is_tick_error e
  then (check_screen_change channel_id o w).1 = Returned () ∧
       files (check_screen_change channel_id o w).2 !! cur = None
  else (check_screen_change channel_id o w).1 = Raised e ∧
       files (check_screen_change channel_id o w).2 !! cur = Some bytes.
Proof.
  intros Hp Hs Hrun Hf Hsend.
  destruct (detect_motion_world (captured w cur bytes) P cur
              PIXEL_DIFF_THRESHOLD) as [evs Hevs].
  rewrite (tick_delivery_failure channel_id w o P cur bytes evs channel e);
    try done.
  - destruct (is_tick_error e); simpl.
    + by rewrite lookup_delete_eq.
    + by rewrite lookup_insert_eq.
  - by rewrite <- Hrun, <- Hevs, <- surjective_pairing.
Qed.

(** C3. The tick in steady state on [send_fails]: the screen went from
    black to white, [detect_motion] returns [True], the channel resolves
    and [channel.send] raises [discord.HTTPException]. The previous
    screenshot is still "before.png", but the exception leaves the tick
    and the captured "after.png" is still on disk. *)
Theorem send_failure_leaves_capture_on_disk :
  (detect_motion "before.png" "after.png" PIXEL_DIFF_THRESHOLD
     (captured steady_world "after.png" (Some (white 160 160)))).1
    = Returned true ∧
  (check_screen_change 7 send_fails steady_world).1 = Raised HTTPException ∧
  previous_screenshot (check_screen_change 7 send_fails steady_world).2
    = Some "before.png" ∧
  files (check_screen_change 7 send_fails steady_world).2 !! "after.png"
    = Some (Some (white 160 160)).
Proof.
  assert ((detect_motion "before.png" "after.png" PIXEL_DIFF_THRESHOLD
             (captured steady_world "after.png" (Some (white 160 160)))).1
          = Returned true) as Hrun.
  { apply (detect_motion_above (cv := ref_cv) _ _ _
             (black 160 160) (white 160 160) (Z.to_nat 160 * Z.to_nat 160));
      [reflexivity | reflexivity | apply ref_differingUnits_black_white; lia |].
    rewrite Nat2Z.inj_mul, Z2Nat.id by lia. unfold PIXEL_DIFF_THRESHOLD. lia. }
  split; [exact Hrun|].
  destruct (delivery_failure_outcome (cv := ref_cv) 7 steady_world send_fails
              "before.png" "after.png" (Some (white 160 160)) 7 HTTPException
              eq_refl eq_refl Hrun eq_refl eq_refl) as (Hprev & Hres & Hfile).
  exact (conj Hres (conj Hprev Hfile)).
Qed.

(** C4, as the code has it. In steady state with previous screenshot [P],
    a tick whose capture succeeds and in which [detect_motion] raises its
    load error, because [P], the capture or both do not decode, returns
    normally, removes the captured file only and keeps
    [previous_screenshot = P]: there is no return to seeding. *)
Theorem load_error_discards_current_only `{cv : OpenCV} (channel_id : Z)
    (w : World file) o P cur bytes :
  previous_screenshot w = Some P → shot o = Returned (cur, bytes) →
  decode_at (captured w cur bytes) P = None ∨
  decode_at (captured w cur bytes) cur = None →
  (check_screen_change channel_id o w).1 = Returned () ∧
  previous_screenshot (check_screen_change channel_id o w).2 = Some P ∧
  files (check_screen_change channel_id o w).2
    = delete cur (<[cur := bytes]> (files w)) ∧
  files (check_screen_change channel_id o w).2 !! cur = None ∧
  (P ≠ cur →
   files (check_screen_change channel_id o w).2 !! P = files w !! P) ∧
  journal (check_screen_change channel_id o w).2
    = journal w ++ [Imread P; Imread cur; ErrorLogged ValueError; Removed cur].
Proof.
  intros Hp Hs Hd.
  rewrite (tick_load_error channel_id w o P cur bytes Hp Hs Hd). simpl.
  repeat split.
  - by rewrite lookup_delete_eq.
  - intros Hne. by rewrite lookup_delete_ne, lookup_insert_ne.
Qed.

Lemma load_error_discards_current_only_witness :
  previous_screenshot torn_world = Some "torn.png" ∧
  shot small_shot = Returned ("shot.png", Some (black 2 2)) ∧
  decode_at (captured torn_world "shot.png" (Some (black 2 2))) "torn.png"
    = None ∧
  previous_screenshot (check_screen_change 7 small_shot torn_world).2
    = Some "torn.png" ∧
  files (check_screen_change 7 small_shot torn_world).2 !! "shot.png" = None.
Proof.
  split; [reflexivity|]. split; [reflexivity|]. split; [reflexivity|].
  destruct (load_error_discards_current_only (cv := ref_cv) 7 torn_world
              small_shot "torn.png" "shot.png" (Some (black 2 2))
              eq_refl eq_refl (or_introl eq_refl))
    as (_ & Hprev & _ & Hcur & _).
  exact (conj Hprev Hcur).
Defined.

(** C4, as the specification states it, fails: the retained "torn.png"
    does not decode while the capture does, [detect_motion] raises, and
    after the tick, and after one more, [previous_screenshot] is still
    "torn.png" and not [None]. *)
Lemma retained_unreadable_is_not_rolled_back :
  decode_at (captured torn_world "shot.png" (Some (black 2 2))) "torn.png"
    = None ∧
  decode_at (captured torn_world "shot.png" (Some (black 2 2))) "shot.png"
    = Some (black 2 2) ∧
  (detect_motion "torn.png" "shot.png" PIXEL_DIFF_THRESHOLD
     (captured torn_world "shot.png" (Some (black 2 2)))).1
    = Raised ValueError ∧
  (check_screen_change 7 small_shot torn_world).1 = Returned () ∧
  previous_screenshot (check_screen_change 7 small_shot torn_world).2 ≠ None ∧
  previous_screenshot (run 7 [small_shot; small_shot] torn_world)
    = Some "torn.png".
Proof. vm_compute. repeat split; done. Qed.

(** C8. [previous_screenshot] is [None] in a state of the loop only if no
    tick so far got past its capture; a tick that returns, normally or
    through its error handler, leaves it set; and no tick, returning or
    raising, turns a set [previous_screenshot] back into [None]. *)
Theorem previous_screenshot_invariant `{cv : OpenCV} (channel_id : Z)
    (disk : gmap string file) (os : list (Oracle file)) :
  previous_screenshot (init disk) = None ∧
  (previous_screenshot (run channel_id os (init disk)) = None ↔
     Forall capture_failed os) ∧
  ∀ o,
    ((check_screen_change channel_id o (run channel_id os (init disk))).1
       = Returned () →
     is_Some (previous_screenshot
                (check_screen_change channel_id o
                   (run channel_id os (init disk))).2)) ∧
    (is_Some (previous_screenshot (run channel_id os (init disk))) →
     is_Some (previous_screenshot
                (check_screen_change channel_id o
                   (run channel_id os (init disk))).2)).
Proof.
  split; [done|]. split.
  - rewrite run_previous_None. simpl. tauto.
  - intros o. set (w := run channel_id os (init disk)).
    split; [|apply keeps_check_screen_change].
    intros Hret.
    destruct (previous_screenshot (check_screen_change channel_id o w).2)
      as [p|] eqn:Hp; [eauto|].
    apply tick_previous_None in Hp as [_ [e He]].
    rewrite (tick_capture_failed channel_id w o e He) in Hret. done.
Qed.

Lemma previous_screenshot_invariant_witness :
  (previous_screenshot (run 7 [small_shot] (init small_disk)) = None ↔
     Forall capture_failed [small_shot]) ∧
  is_Some (previous_screenshot
             (check_screen_change 7 small_shot
                (run 7 [small_shot] (init small_disk))).2).
Proof.
  destruct (previous_screenshot_invariant (cv := ref_cv) 7 small_disk
              [small_shot]) as (_ & Hnone & Hstep).
  split; [exact Hnone|].
  destruct (Hstep small_shot) as [Hret _]. apply Hret. reflexivity.
Defined.

(** Two ticks on a quiet screen: the first seeds, the second compares,
    finds 0 differing pixels, removes the first file and keeps the
    second. *)
Example quiet_screen_two_ticks :
  let w := run 7 [small_shot;
                  MkOracle (Returned ("next.png", Some (black 2 2)))
                           (Returned (Some 7)) (Returned ())]
             (init small_disk) in
  previous_screenshot w = Some "next.png" ∧
  files w !! "shot.png" = None ∧
  journal w = [FirstScreenshot; Imread "shot.png"; Imread "next.png";
               DifferingPixels 0; NoMotion; Removed "shot.png"].
Proof. vm_compute. done. Qed.

(** ** Every way a steady tick ends *)

Section TickOutcome.
Context `{cv : OpenCV}.
Variable DISCORD_CHANNEL_ID : Z.

Abbreviation tick := (check_screen_change DISCORD_CHANNEL_ID).

Ltac step_tick :=
  unfold check_screen_change, try_except, capture_screen, get_previous,
    set_previous, await_fetch_channel, await_send, open_rb, path_exists,
    os_remove, emit, mbind, M_bind, bind, mret, M_ret, ret, raise;
  simpl.

(** [fetch_channel] raises something that is no [discord.HTTPException]:
    the inner [except] clauses let it through, the outer one decides. *)
Lemma tick_fetch_raises (w : World file) o P cur bytes evs e :
  previous_screenshot w = Some P → shot o = Returned (cur, bytes) →
  detect_motion P cur PIXEL_DIFF_THRESHOLD (captured w cur bytes)
    = (Returned true, logged (captured w cur bytes) evs) →
  fetch_channel o = Raised e → is_discord_http e = false →
  tick o w =
    if is_tick_error e
    then (Returned (),
          MkWorld (Some P) (delete cur (<[cur := bytes]> (files w)))
            (journal w ++ evs ++ [FetchChannel DISCORD_CHANNEL_ID;
                                  ErrorLogged e; Removed cur]))
    else (Raised e,
          MkWorld (Some P) (<[cur := bytes]> (files w))
            (journal w ++ evs ++ [FetchChannel DISCORD_CHANNEL_ID])).
Proof.
  destruct w as [pv fs jn]. simpl. intros -> Hs Hrun Hf Hd.
  unfold captured, logged in Hrun. simpl in Hrun.
  step_tick. rewrite Hs. simpl. rewrite Hrun. simpl.
  rewrite Hf. simpl. rewrite Hd.
  destruct e; simpl in *; try discriminate; rewrite ?lookup_insert_eq; simpl;
    rewrite ?lookup_insert_eq; by rewrite <- !app_assoc.
Qed.

Lemma notifications_app j j' :
  notifications (j ++ j') = notifications j ++ notifications j'.
Proof. apply filter_app. Qed.

Lemma tick_steady_outcome (w : World file) o P cur bytes :
  previous_screenshot w = Some P → shot o = Returned (cur, bytes) →
  steady_outcome o w P cur bytes (tick o w).
Proof.
  intros Hp Hs.
  destruct (decode_at (captured w cur bytes) P) as [a|] eqn:Ha;
    [destruct (decode_at (captured w cur bytes) cur) as [b|] eqn:Hb|].
  - destruct (detect_motion_decoded _ P cur a b Ha Hb) as (n & _ & Hrun).
    specialize (Hrun PIXEL_DIFF_THRESHOLD).
    destruct (bool_decide (PIXEL_DIFF_THRESHOLD < Z.of_nat n)).
    + destruct (fetch_channel o) as [[ch|]|e] eqn:Hf.
      * destruct (send o) as [[]|e'] eqn:Hsend.
        -- rewrite (tick_motion_sent _ w o P cur bytes _ ch Hp Hs Hrun Hf Hsend).
           apply Rotated. right. by exists ch.
        -- rewrite (tick_delivery_failure _ w o P cur bytes _ ch e' Hp Hs Hrun
                      Hf Hsend).
           destruct (is_tick_error e') eqn:He.
           ++ by apply Discarded.
           ++ apply Escaped; [done | by right | done].
      * rewrite (tick_resolution_failure _ w o P cur bytes _ ValueError
                   Hp Hs Hrun); [by apply Discarded|].
        unfold resolution_error. by rewrite Hf.
      * destruct (is_discord_http e) eqn:Hd.
        -- assert (∃ error, resolution_error o = Some error) as [error Hr].
           { unfold resolution_error. rewrite Hf. destruct e; by eauto. }
           rewrite (tick_resolution_failure _ w o P cur bytes _ error
                      Hp Hs Hrun Hr).
           by apply Discarded.
        -- rewrite (tick_fetch_raises w o P cur bytes _ e Hp Hs Hrun Hf Hd).
           destruct (is_tick_error e) eqn:He.
           ++ by apply Discarded.
           ++ apply Escaped; [done | by left | done].
    + rewrite (tick_no_motion _ w o P cur bytes _ Hp Hs Hrun).
      apply Rotated. by left.
  - rewrite (tick_load_error _ w o P cur bytes Hp Hs) by (by right).
    by apply Discarded.
  - rewrite (tick_load_error _ w o P cur bytes Hp Hs) by (by left).
    by apply Discarded.
Qed.

End TickOutcome.

(** ** More on the comparator *)

Lemma differs_at_sym a b p : differs_at a b p ↔ differs_at b a p.
Proof. unfold differs_at. lia. Qed.

Lemma indices_shape a b : shape a = shape b → indices a = indices b.
Proof. unfold shape, indices. by intros [= -> ->]. Qed.

(** The blurred grids of two decoded pictures exist and have the first
    picture's dimensions. *)
Lemma blurred_decoded `{cv : OpenCV} (w : World file) p1 p2 a b :
  decode_at w p1 = Some a → decode_at w p2 = Some b →
  ∃ ba bb, blurred a b = Some (ba, bb) ∧
    shape ba = (crows a, ccols a) ∧ shape bb = (crows a, ccols a) ∧
    0 < crows a ∧ 0 < ccols a.
Proof.
  intros Ha Hb.
  destruct (decoded_gray_nonempty _ _ _ Ha) as [Hra Hca].
  destruct (decoded_gray_nonempty _ _ _ Hb) as [Hrb Hcb].
  pose proof (cvtColor_shape a) as Hsa.
  assert (∃ g2, (if decide (shape (cvtColor a) = shape (cvtColor b))
                 then Some (cvtColor b)
                 else resize (cvtColor b) (cols (cvtColor a), rows (cvtColor a)))
                = Some g2 ∧ shape g2 = shape (cvtColor a)) as (g2 & Hg2 & Hs2).
  { case_decide; [eauto|]. by apply resize_shape. }
  destruct (GaussianBlur_shape (cvtColor a) Hra Hca) as (b1 & Hb1 & Hsb1).
  assert (0 < rows g2 ∧ 0 < cols g2) as [Hr2 Hc2].
  { unfold shape in Hs2. injection Hs2 as -> ->. done. }
  destruct (GaussianBlur_shape g2 Hr2 Hc2) as (b2 & Hb2 & Hsb2).
  exists b1, b2. split; [|split; [|split]].
  - unfold blurred. simpl. rewrite Hg2. simpl.
    rewrite Hb1. simpl. by rewrite Hb2.
  - congruence.
  - congruence.
  - unfold shape in Hsa. injection Hsa as <- <-. done.
Qed.

(** The count never exceeds the number of pixels of the first picture. *)
Lemma differingUnits_le_pixels `{cv : OpenCV} (w : World file) p1 p2 a b :
  decode_at w p1 = Some a → decode_at w p2 = Some b →
  ∃ n, differingUnits a b = Some n ∧ Z.of_nat n ≤ crows a * ccols a.
Proof.
  intros Ha Hb.
  destruct (blurred_decoded w p1 p2 a b Ha Hb)
    as (ba & bb & Hbl & Hsa & _ & Hr & Hc).
  exists (length (filter (differs_at ba bb) (indices ba))). split.
  - unfold differingUnits. by rewrite Hbl.
  - pose proof (length_filter (differs_at ba bb) (indices ba)) as Hle.
    rewrite length_indices in Hle.
    unfold shape in Hsa. injection Hsa as Hrows Hcols.
    rewrite Hrows, Hcols in Hle. nia.
Qed.

(** X1. [detect_motion] changes nothing but the journal: the stored
    previous screenshot and every file are as before; it reads both paths,
    the second also when the first did not decode, and logs the count only
    when both did. *)
Theorem detect_motion_only_reads `{cv : OpenCV} (w : World file) p1 p2 t :
  previous_screenshot (detect_motion p1 p2 t w).2 = previous_screenshot w ∧
  files (detect_motion p1 p2 t w).2 = files w ∧
  ∃ tail,
    journal (detect_motion p1 p2 t w).2
      = journal w ++ Imread p1 :: Imread p2 :: tail ∧
    ((tail = [] ∧ (decode_at w p1 = None ∨ decode_at w p2 = None)) ∨
     (∃ n, tail = [DifferingPixels n] ∧
           is_Some (decode_at w p1) ∧ is_Some (decode_at w p2))).
Proof.
  destruct (decode_at w p1) as [a|] eqn:Ha;
    [destruct (decode_at w p2) as [b|] eqn:Hb|].
  - destruct (detect_motion_decoded w p1 p2 a b Ha Hb) as (n & _ & Hrun).
    rewrite (Hrun t). simpl. repeat split; try done.
    exists [DifferingPixels n]. split; [done|]. right. eauto.
  - rewrite (detect_motion_undecodable w p1 p2 t) by (right; done). simpl.
    repeat split; try done. exists []. split; [done|]. left. eauto.
  - rewrite (detect_motion_undecodable w p1 p2 t) by (left; done). simpl.
    repeat split; try done. exists []. split; [done|]. left. eauto.
Qed.

Lemma detect_motion_only_reads_witness :
  files (detect_motion "nowhere.png" "black.png" 3 small_world).2 = small_disk ∧
  ∃ tail,
    journal (detect_motion "nowhere.png" "black.png" 3 small_world).2
      = journal small_world ++ Imread "nowhere.png" :: Imread "black.png" :: tail.
Proof.
  destruct (detect_motion_only_reads (cv := ref_cv) small_world
              "nowhere.png" "black.png" 3) as (_ & Hfiles & tail & Hj & _).
  split; [exact Hfiles | exists tail; exact Hj].
Defined.

(** X2. Between two decodable pictures of the same dimensions the verdict
    does not depend on the order of the two paths. *)
Theorem detect_motion_symmetric `{cv : OpenCV} (w : World file) p1 p2 a b t :
  decode_at w p1 = Some a → decode_at w p2 = Some b →
  shape (cvtColor a) = shape (cvtColor b) →
  differingUnits a b = differingUnits b a ∧
  (detect_motion p1 p2 t w).1 = (detect_motion p2 p1 t w).1.
Proof.
  intros Ha Hb Hs.
  assert (differingUnits a b = differingUnits b a) as Heq.
  { destruct (decoded_gray_nonempty _ _ _ Ha) as [Hra Hca].
    destruct (decoded_gray_nonempty _ _ _ Hb) as [Hrb Hcb].
    destruct (GaussianBlur_shape (cvtColor a) Hra Hca) as (ga & Hga & Hsga).
    destruct (GaussianBlur_shape (cvtColor b) Hrb Hcb) as (gb & Hgb & Hsgb).
    unfold differingUnits, blurred.
    rewrite (decide_True (P := shape (cvtColor a) = shape (cvtColor b)))
      by done.
    rewrite (decide_True (P := shape (cvtColor b) = shape (cvtColor a)))
      by done.
    simpl. rewrite Hga, Hgb. simpl.
    rewrite (indices_shape gb ga) by congruence.
    rewrite (list_filter_iff (differs_at gb ga) (differs_at ga gb)); [done|].
    intros p. apply differs_at_sym. }
  split; [done|].
  destruct (detect_motion_decoded w p1 p2 a b Ha Hb) as (n & Hn & Hrun).
  destruct (detect_motion_decoded w p2 p1 b a Hb Ha) as (n' & Hn' & Hrun').
  rewrite Heq, Hn' in Hn. injection Hn as ->.
  by rewrite Hrun, Hrun'.
Qed.

Lemma detect_motion_symmetric_witness :
  shape (ref_cvtColor (black 2 2)) = shape (ref_cvtColor (white 2 2)) ∧
  (detect_motion "black.png" "white.png" 3 small_world).1
    = (detect_motion "white.png" "black.png" 3 small_world).1.
Proof.
  split; [reflexivity|].
  apply (detect_motion_symmetric (cv := ref_cv) small_world
           "black.png" "white.png" (black 2 2) (white 2 2) 3); reflexivity.
Defined.

(** With different dimensions the order matters: the second picture is
    the one resampled, so the count is taken over the first one's grid. *)
Example detect_motion_order_matters :
  (detect_motion "black.png" "wide.png" 3 small_world).1 = Returned true ∧
  (detect_motion "wide.png" "black.png" 3 small_world).1 = Returned false.
Proof. vm_compute. done. Qed.

(** X3. The count of differing pixels lies between 0 and the number of
    pixels of the first picture. So a negative threshold reports motion
    for every pair of decodable pictures, identical ones included, and a
    threshold of at least the first picture's pixel count never does. *)
Theorem detect_motion_threshold_extremes `{cv : OpenCV} (w : World file)
    p1 p2 a b :
  decode_at w p1 = Some a → decode_at w p2 = Some b →
  ∃ n : nat, differingUnits a b = Some n ∧
    Z.of_nat n ≤ crows a * ccols a ∧
    (∀ t, t < 0 → (detect_motion p1 p2 t w).1 = Returned true) ∧
    (∀ t, crows a * ccols a ≤ t →
          (detect_motion p1 p2 t w).1 = Returned false).
Proof.
  intros Ha Hb.
  destruct (differingUnits_le_pixels w p1 p2 a b Ha Hb) as (n & Hn & Hle).
  destruct (detect_motion_decoded w p1 p2 a b Ha Hb) as (n' & Hn' & Hrun).
  assert (n' = n) as -> by congruence.
  exists n. repeat split; try done.
  - intros t Ht. rewrite Hrun. simpl.
    rewrite bool_decide_eq_true_2; [done | lia].
  - intros t Ht. rewrite Hrun. simpl.
    rewrite bool_decide_eq_false_2; [done | lia].
Qed.

Lemma detect_motion_threshold_extremes_witness :
  (detect_motion "teal.png" "teal2.png" (-1) small_world).1 = Returned true ∧
  (detect_motion "black.png" "white.png" 4 small_world).1 = Returned false.
Proof.
  destruct (detect_motion_threshold_extremes (cv := ref_cv) small_world
              "teal.png" "teal2.png" _ _ eq_refl eq_refl)
    as (n & _ & _ & Hneg & _).
  destruct (detect_motion_threshold_extremes (cv := ref_cv) small_world
              "black.png" "white.png" _ _ eq_refl eq_refl)
    as (n' & _ & _ & _ & Hbig).
  split; [apply Hneg; lia | apply Hbig; simpl; lia].
Defined.

(** ** More on the loop *)

(** On [steady_world], a white capture differs from the black baseline in
    all 25600 pixels. *)
Lemma steady_world_white_units :
  decode_at (captured steady_world "after.png" (Some (white 160 160)))
    "before.png" = Some (black 160 160) ∧
  decode_at (captured steady_world "after.png" (Some (white 160 160)))
    "after.png" = Some (white 160 160) ∧
  differingUnits (cv := ref_cv) (black 160 160) (white 160 160)
    = Some (Z.to_nat 160 * Z.to_nat 160)%nat ∧
  PIXEL_DIFF_THRESHOLD < Z.of_nat (Z.to_nat 160 * Z.to_nat 160).
Proof.
  split; [reflexivity|]. split; [reflexivity|]. split.
  - apply ref_differingUnits_black_white; lia.
  - rewrite Nat2Z.inj_mul, Z2Nat.id by lia. unfold PIXEL_DIFF_THRESHOLD. lia.
Qed.

(** X4. A tick in steady state whose two screenshots decode and differ in
    at most 25000 pixels never contacts discord: it returns, logs "No
    significant motion detected.", removes the previous file and makes
    the capture the previous screenshot. *)
Theorem quiet_tick_rotates `{cv : OpenCV} (channel_id : Z) (w : World file)
    o P cur bytes a b n :
  previous_screenshot w = Some P → shot o = Returned (cur, bytes) →
  decode_at (captured w cur bytes) P = Some a →
  decode_at (captured w cur bytes) cur = Some b →
  differingUnits a b = Some n → Z.of_nat n ≤ PIXEL_DIFF_THRESHOLD →
  P ≠ cur →
  (check_screen_change channel_id o w).1 = Returned () ∧
  previous_screenshot (check_screen_change channel_id o w).2 = Some cur ∧
  files (check_screen_change channel_id o w).2
    = delete P (<[cur := bytes]> (files w)) ∧
  files (check_screen_change channel_id o w).2 !! P = None ∧
  files (check_screen_change channel_id o w).2 !! cur = Some bytes ∧
  journal (check_screen_change channel_id o w).2
    = journal w ++ [Imread P; Imread cur; DifferingPixels n; NoMotion;
                    Removed P].
Proof.
  intros Hp Hs Ha Hb Hn Hle Hne.
  destruct (detect_motion_decoded _ P cur a b Ha Hb) as (n' & Hn' & Hrun).
  assert (n' = n) as -> by congruence.
  specialize (Hrun PIXEL_DIFF_THRESHOLD).
  rewrite bool_decide_eq_false_2 in Hrun by lia.
  rewrite (tick_no_motion channel_id w o P cur bytes _ Hp Hs Hrun).
  assert (is_Some (<[cur:=bytes]> (files w) !! P)) as [f Hf].
  { unfold decode_at in Ha. simpl in Ha.
    destruct (<[cur:=bytes]> (files w) !! P); [eauto | done]. }
  unfold rotated. rewrite Hf. simpl. repeat split.
  - by rewrite lookup_delete_eq.
  - by rewrite lookup_delete_ne, lookup_insert_eq.
Qed.

Lemma quiet_tick_rotates_witness :
  previous_screenshot
    (check_screen_change 7 small_shot
       (MkWorld (Some "white.png") small_disk [])).2 = Some "shot.png" ∧
  files (check_screen_change 7 small_shot
           (MkWorld (Some "white.png") small_disk [])).2 !! "white.png" = None ∧
  journal (check_screen_change 7 small_shot
             (MkWorld (Some "white.png") small_disk [])).2
    = [Imread "white.png"; Imread "shot.png"; DifferingPixels 4; NoMotion;
       Removed "white.png"].
Proof.
  destruct (quiet_tick_rotates (cv := ref_cv) 7
              (MkWorld (Some "white.png") small_disk []) small_shot
              "white.png" "shot.png" (Some (black 2 2))
              (white 2 2) (black 2 2) 4 eq_refl eq_refl eq_refl eq_refl
              eq_refl)
    as (_ & Hprev & _ & Hgone & _ & Hj);
    [unfold PIXEL_DIFF_THRESHOLD; lia | done |].
  exact (conj Hprev (conj Hgone Hj)).
Defined.

(** X5. A tick in steady state whose two screenshots decode and differ in
    more than 25000 pixels, with the channel resolved and the message
    delivered, sends exactly one message, to the resolved channel and with
    the capture attached, then removes the previous file and makes the
    capture the previous screenshot. *)
Theorem motion_tick_notifies `{cv : OpenCV} (channel_id : Z) (w : World file)
    o P cur bytes a b n channel :
  previous_screenshot w = Some P → shot o = Returned (cur, bytes) →
  decode_at (captured w cur bytes) P = Some a →
  decode_at (captured w cur bytes) cur = Some b →
  differingUnits a b = Some n → PIXEL_DIFF_THRESHOLD < Z.of_nat n →
  fetch_channel o = Returned (Some channel) → send o = Returned () →
  P ≠ cur →
  (check_screen_change channel_id o w).1 = Returned () ∧
  previous_screenshot (check_screen_change channel_id o w).2 = Some cur ∧
  files (check_screen_change channel_id o w).2 !! P = None ∧
  files (check_screen_change channel_id o w).2 !! cur = Some bytes ∧
  journal (check_screen_change channel_id o w).2
    = journal w ++ [Imread P; Imread cur; DifferingPixels n;
                    FetchChannel channel_id;
                    Sent channel "Motion detected! Here's the screenshot:" cur;
                    MotionSent; Removed P].
Proof.
  intros Hp Hs Ha Hb Hn Hlt Hf Hsend Hne.
  destruct (detect_motion_decoded _ P cur a b Ha Hb) as (n' & Hn' & Hrun).
  assert (n' = n) as -> by congruence.
  specialize (Hrun PIXEL_DIFF_THRESHOLD).
  rewrite bool_decide_eq_true_2 in Hrun by lia.
  rewrite (tick_motion_sent channel_id w o P cur bytes _ channel
             Hp Hs Hrun Hf Hsend).
  assert (is_Some (<[cur:=bytes]> (files w) !! P)) as [f Hfile].
  { unfold decode_at in Ha. simpl in Ha.
    destruct (<[cur:=bytes]> (files w) !! P); [eauto | done]. }
  unfold rotated. rewrite Hfile. simpl. repeat split.
  - by rewrite lookup_delete_eq.
  - by rewrite lookup_delete_ne, lookup_insert_eq.
Qed.

Lemma motion_tick_notifies_witness :
  previous_screenshot (check_screen_change 7 white_shot steady_world).2
    = Some "after.png" ∧
  files (check_screen_change 7 white_shot steady_world).2 !! "before.png"
    = None ∧
  journal (check_screen_change 7 white_shot steady_world).2
    = [Imread "before.png"; Imread "after.png";
       DifferingPixels (Z.to_nat 160 * Z.to_nat 160); FetchChannel 7;
       Sent 7 "Motion detected! Here's the screenshot:" "after.png";
       MotionSent; Removed "before.png"].
Proof.
  destruct steady_world_white_units as (Ha & Hb & Hn & Hlt).
  destruct (motion_tick_notifies (cv := ref_cv) 7 steady_world white_shot
              "before.png" "after.png" (Some (white 160 160))
              (black 160 160) (white 160 160) _ 7
              eq_refl eq_refl Ha Hb Hn Hlt eq_refl eq_refl)
    as (_ & Hprev & Hgone & _ & Hj); [by intros [=]|].
  exact (conj Hprev (conj Hgone Hj)).
Defined.

(** X6. A tick in steady state that detects motion and cannot resolve the
    channel ([discord.NotFound], [discord.Forbidden], another
    [discord.HTTPException], or a [None] channel) returns normally: it logs
    the translated error, sends nothing, removes the capture and keeps the
    previous screenshot and its file. *)
Theorem resolution_failure_discards_capture `{cv : OpenCV} (channel_id : Z)
    (w : World file) o P cur bytes a b n error :
  previous_screenshot w = Some P → shot o = Returned (cur, bytes) →
  decode_at (captured w cur bytes) P = Some a →
  decode_at (captured w cur bytes) cur = Some b →
  differingUnits a b = Some n → PIXEL_DIFF_THRESHOLD < Z.of_nat n →
  resolution_error o = Some error →
  P ≠ cur →
  is_tick_error error = true ∧
  (check_screen_change channel_id o w).1 = Returned () ∧
  previous_screenshot (check_screen_change channel_id o w).2 = Some P ∧
  files (check_screen_change channel_id o w).2 !! cur = None ∧
  files (check_screen_change channel_id o w).2 !! P = files w !! P ∧
  journal (check_screen_change channel_id o w).2
    = journal w ++ [Imread P; Imread cur; DifferingPixels n;
                    FetchChannel channel_id; ErrorLogged error; Removed cur].
Proof.
  intros Hp Hs Ha Hb Hn Hlt Hres Hne.
  destruct (detect_motion_decoded _ P cur a b Ha Hb) as (n' & Hn' & Hrun).
  assert (n' = n) as -> by congruence.
  specialize (Hrun PIXEL_DIFF_THRESHOLD).
  rewrite bool_decide_eq_true_2 in Hrun by lia.
  rewrite (tick_resolution_failure channel_id w o P cur bytes _ error
             Hp Hs Hrun Hres).
  simpl. repeat split.
  - unfold resolution_error in Hres.
    destruct (fetch_channel o) as [[?|]|[]]; by simplify_eq.
  - by rewrite lookup_delete_eq.
  - by rewrite lookup_delete_ne, lookup_insert_ne.
Qed.

Lemma resolution_failure_discards_capture_witness :
  (check_screen_change 7 channel_missing steady_world).1 = Returned () ∧
  previous_screenshot (check_screen_change 7 channel_missing steady_world).2
    = Some "before.png" ∧
  files (check_screen_change 7 channel_missing steady_world).2 !! "after.png"
    = None.
Proof.
  destruct steady_world_white_units as (Ha & Hb & Hn & Hlt).
  destruct (resolution_failure_discards_capture (cv := ref_cv) 7 steady_world
              channel_missing "before.png" "after.png" (Some (white 160 160))
              (black 160 160) (white 160 160) _ ValueError
              eq_refl eq_refl Ha Hb Hn Hlt eq_refl)
    as (_ & Hret & Hprev & Hgone & _); [by intros [=]|].
  exact (conj Hret (conj Hprev Hgone)).
Defined.

(** X7. The exceptions that leave a tick. One raised by [capture_screen]
    always does, whatever its class, and the world is as before. After a
    capture that returned, an exception leaves the tick only if it is
    none of [ValueError], [PermissionError], [ConnectionError], and it was
    raised by [fetch_channel] (being no [discord.HTTPException]) or by
    [channel.send]. *)
Theorem tick_raise_origin `{cv : OpenCV} (channel_id : Z) (w : World file)
    o e :
  (check_screen_change channel_id o w).1 = Raised e →
  (shot o = Raised e ∧ (check_screen_change channel_id o w).2 = w) ∨
  (is_tick_error e = false ∧
   ((fetch_channel o = Raised e ∧ is_discord_http e = false) ∨
    send o = Raised e)).
Proof.
  intros Hraise.
  destruct (shot o) as [[cur bytes]|e'] eqn:Hs.
  - right. destruct (previous_screenshot w) as [P|] eqn:Hp.
    + pose proof (tick_steady_outcome channel_id w o P cur bytes Hp Hs) as Hout.
      inversion Hout as [evs Hn Heq | evs Hn Heq | e0 evs He Horigin Hn Heq];
        rewrite <- Heq in Hraise; simpl in Hraise; try done.
      by injection Hraise as <-.
    + by rewrite (tick_seeding channel_id w o cur bytes Hp Hs) in Hraise.
  - left. rewrite (tick_capture_failed channel_id w o e' Hs) in *.
    by injection Hraise as <-.
Qed.

Lemma tick_raise_origin_witness :
  (check_screen_change 7 no_display small_world).1 = Raised ScreenShotError ∧
  (check_screen_change 7 no_display small_world).2 = small_world.
Proof.
  split; [reflexivity|].
  destruct (tick_raise_origin (cv := ref_cv) 7 small_world no_display
              ScreenShotError eq_refl) as [[_ H]|[_ [[H _]|H]]];
    [exact H | discriminate H | discriminate H].
Defined.

(** A [ValueError] raised by the capture is not handled either. *)
Example capture_value_error_escapes :
  check_screen_change (cv := ref_cv) 7
    (MkOracle (Raised ValueError) (Returned (Some 7)) (Returned ()))
    steady_world
  = (Raised ValueError, steady_world).
Proof. reflexivity. Qed.

(** X8. A tick sends at most one message. When it sends one, the tick
    started with a previous screenshot, the channel resolved, the message
    carries the fixed text and the capture of this tick, and the tick
    returns with that capture as the new previous screenshot. *)
Theorem tick_notifies_at_most_once `{cv : OpenCV} (channel_id : Z)
    (w : World file) o :
  notifications (journal (check_screen_change channel_id o w).2)
    = notifications (journal w) ∨
  ∃ P cur bytes channel,
    previous_screenshot w = Some P ∧ shot o = Returned (cur, bytes) ∧
    fetch_channel o = Returned (Some channel) ∧ send o = Returned () ∧
    notifications (journal (check_screen_change channel_id o w).2)
      = notifications (journal w)
        ++ [Sent channel "Motion detected! Here's the screenshot:" cur] ∧
    (check_screen_change channel_id o w).1 = Returned () ∧
    previous_screenshot (check_screen_change channel_id o w).2 = Some cur.
Proof.
  destruct (shot o) as [[cur bytes]|e'] eqn:Hs.
  - destruct (previous_screenshot w) as [P|] eqn:Hp.
    + pose proof (tick_steady_outcome channel_id w o P cur bytes Hp Hs) as Hout.
      inversion Hout as [evs Hn Heq | evs Hn Heq | e0 evs He Horigin Hn Heq].
      * assert (journal (rotated w P cur bytes evs) = journal w ++ evs ∨
                journal (rotated w P cur bytes evs)
                  = journal w ++ evs ++ [Removed P]) as Hj.
        { unfold rotated. destruct (_ !! P); simpl; eauto. }
        assert (notifications (journal (rotated w P cur bytes evs))
                = notifications (journal w) ++ notifications evs) as Hnj.
        { destruct Hj as [-> | ->]; rewrite !notifications_app; [done|].
          change (notifications [Removed P]) with (@nil event).
          by rewrite app_nil_r. }
        destruct Hn as [Hn | (channel & Hf & Hsend & Hn)].
        -- left. simpl. by rewrite Hnj, Hn, app_nil_r.
        -- right. exists P, cur, bytes, channel. simpl.
           rewrite Hnj, Hn. repeat split; try done.
           unfold rotated. by destruct (_ !! P).
      * left. simpl. by rewrite notifications_app, Hn, app_nil_r.
      * left. simpl. by rewrite notifications_app, Hn, app_nil_r.
    + left. rewrite (tick_seeding channel_id w o cur bytes Hp Hs). simpl.
      rewrite notifications_app. apply app_nil_r.
  - left. by rewrite (tick_capture_failed channel_id w o e' Hs).
Qed.

Lemma tick_notifies_at_most_once_witness :
  notifications (journal (check_screen_change 7 small_shot small_world).2)
    = [].
Proof.
  destruct (tick_notifies_at_most_once (cv := ref_cv) 7 small_world small_shot)
    as [H | (P & cur & bytes & channel & Hp & _)];
    [exact H | discriminate Hp].
Defined.

(** X9. A tick touches two files at most: the one its capture writes and
    the one the previous screenshot names. Every other path holds after the
    tick what it held before, whether the tick returned or raised. *)
Theorem tick_touches_only_its_two_files `{cv : OpenCV} (channel_id : Z)
    (w : World file) o q :
  previous_screenshot w ≠ Some q →
  (∀ bytes, shot o ≠ Returned (q, bytes)) →
  files (check_screen_change channel_id o w).2 !! q = files w !! q.
Proof.
  intros Hprev Hshot.
  destruct (shot o) as [[cur bytes]|e'] eqn:Hs.
  - assert (cur ≠ q) as Hcur by (intros ->; by apply (Hshot bytes)).
    destruct (previous_screenshot w) as [P|] eqn:Hp.
    + assert (P ≠ q) as HP by congruence.
      pose proof (tick_steady_outcome channel_id w o P cur bytes Hp Hs) as Hout.
      inversion Hout as [evs Hn Heq | evs Hn Heq | e0 evs He Horigin Hn Heq];
        simpl.
      * unfold rotated. destruct (_ !! P); simpl;
          by rewrite ?lookup_delete_ne, lookup_insert_ne.
      * by rewrite lookup_delete_ne, lookup_insert_ne.
      * by rewrite lookup_insert_ne.
    + rewrite (tick_seeding channel_id w o cur bytes Hp Hs). simpl.
      by rewrite lookup_insert_ne.
  - by rewrite (tick_capture_failed channel_id w o e' Hs).
Qed.

Lemma tick_touches_only_its_two_files_witness :
  files (check_screen_change 7 small_shot torn_world).2 !! "teal.png"
  = Some (Some (solid 100 100 128 128 0)).
Proof.
  refine (eq_trans (tick_touches_only_its_two_files (cv := ref_cv) 7
                      torn_world small_shot "teal.png" _ _) _).
  - by intros [=].
  - intros bytes. by intros [=].
  - reflexivity.
Defined.

(** One tick keeps [retained_on_disk] when its capture does not write to
    the path of the previous screenshot. *)
Lemma tick_retained_on_disk `{cv : OpenCV} (channel_id : Z) (w : World file) o :
  retained_on_disk w →
  (∀ bytes P, previous_screenshot w = Some P → shot o ≠ Returned (P, bytes)) →
  retained_on_disk (check_screen_change channel_id o w).2.
Proof.
  intros Hret Hfresh.
  destruct (shot o) as [[cur bytes]|e'] eqn:Hs.
  - destruct (previous_screenshot w) as [P|] eqn:Hp.
    + assert (P ≠ cur) as Hne by (intros ->; by apply (Hfresh bytes cur)).
      destruct (Hret P Hp) as [f Hf].
      pose proof (tick_steady_outcome channel_id w o P cur bytes Hp Hs) as Hout.
      inversion Hout as [evs Hn Heq | evs Hn Heq | e0 evs He Horigin Hn Heq];
        intros Q HQ; simpl in *.
      * unfold rotated in *. rewrite lookup_insert_ne, Hf in * by done.
        simpl in *. injection HQ as <-.
        rewrite lookup_delete_ne, lookup_insert_eq by done. eauto.
      * injection HQ as <-.
        rewrite lookup_delete_ne, lookup_insert_ne by done. eauto.
      * injection HQ as <-. rewrite lookup_insert_ne by done. eauto.
    + rewrite (tick_seeding channel_id w o cur bytes Hp Hs).
      intros Q HQ. simpl in *. injection HQ as <-.
      rewrite lookup_insert_eq. eauto.
  - by rewrite (tick_capture_failed channel_id w o e' Hs).
Qed.

(** After a tick the previous screenshot is the one before or the capture
    of this tick. *)
Lemma tick_previous_cases `{cv : OpenCV} (channel_id : Z) (w : World file) o :
  previous_screenshot (check_screen_change channel_id o w).2
    = previous_screenshot w ∨
  ∃ cur bytes, shot o = Returned (cur, bytes) ∧
    previous_screenshot (check_screen_change channel_id o w).2 = Some cur.
Proof.
  destruct (shot o) as [[cur bytes]|e'] eqn:Hs.
  - destruct (previous_screenshot w) as [P|] eqn:Hp.
    + pose proof (tick_steady_outcome channel_id w o P cur bytes Hp Hs) as Hout.
      inversion Hout as [evs Hn Heq | evs Hn Heq | e0 evs He Horigin Hn Heq];
        simpl; [|by left|by left].
      right. exists cur, bytes. split; [done|].
      unfold rotated. by destruct (_ !! P).
    + right. exists cur, bytes. split; [done|].
      by rewrite (tick_seeding channel_id w o cur bytes Hp Hs).
  - left. by rewrite (tick_capture_failed channel_id w o e' Hs).
Qed.

Lemma run_retained_on_disk `{cv : OpenCV} (channel_id : Z)
    (os : list (Oracle file)) (w : World file) :
  retained_on_disk w →
  (∀ P, previous_screenshot w = Some P → P ∉ captured_paths os) →
  NoDup (captured_paths os) →
  retained_on_disk (run channel_id os w).
Proof.
  revert w. induction os as [|o os IH]; intros w Hret Hprev Hnd; [done|].
  simpl. apply IH.
  - apply tick_retained_on_disk; [done|].
    intros bytes P HP Hs. apply (Hprev P HP).
    unfold captured_paths. simpl. rewrite Hs. simpl. left.
  - intros P HP Hin.
    destruct (tick_previous_cases channel_id w o) as [Heq | (cur & bytes & Hs & Heq)].
    + rewrite Heq in HP. apply (Hprev P HP).
      unfold captured_paths in *. simpl. destruct (shot o) as [[? ?]|]; simpl;
        [by right | done].
    + rewrite Heq in HP. injection HP as <-.
      unfold captured_paths in Hnd, Hin. simpl in Hnd. rewrite Hs in Hnd.
      simpl in Hnd. by apply NoDup_cons in Hnd as [Hnot _].
  - unfold captured_paths in *. simpl in Hnd.
    destruct (shot o) as [[? ?]|]; simpl in Hnd; [|done].
    by apply NoDup_cons in Hnd as [_ Hnd].
Qed.

(** X10. Along every run from [__init__] whose captures write to pairwise
    different paths, the previous screenshot, once set, names a file that
    is on disk: the loop never removes the file it will compare against. *)
Theorem retained_file_stays_on_disk `{cv : OpenCV} (channel_id : Z)
    (disk : gmap string file) (os : list (Oracle file)) :
  NoDup (captured_paths os) →
  retained_on_disk (run channel_id os (init disk)).
Proof.
  intros Hnd. apply run_retained_on_disk; [by intros P | by intros P | done].
Qed.

Lemma retained_file_stays_on_disk_witness :
  NoDup (captured_paths [small_shot; white_shot]) ∧
  retained_on_disk (run 7 [small_shot; white_shot] (init small_disk)).
Proof.
  assert (NoDup (captured_paths [small_shot; white_shot])) as Hnd.
  { unfold captured_paths. simpl. apply NoDup_cons. split.
    - rewrite list_elem_of_singleton. by intros [=].
    - apply NoDup_singleton. }
  split; [exact Hnd|].
  exact (retained_file_stays_on_disk (cv := ref_cv) 7 small_disk
           [small_shot; white_shot] Hnd).
Defined.

(** A capture that overwrites the previous screenshot's own path breaks
    it: the quiet tick then removes the file it has just written. *)
Example same_path_leaves_dangling_previous :
  let w := run 7 [small_shot; small_shot] (init small_disk) in
  previous_screenshot w = Some "shot.png" ∧ files w !! "shot.png" = None.
Proof. vm_compute. done. Qed.

(** X11. Once the previous screenshot does not decode, the loop is stuck
    on it: as long as no capture writes to that very path, every later
    tick leaves the previous screenshot where it is, still undecodable, and
    no message is ever sent, whatever the screen shows. *)
Theorem unreadable_baseline_blocks_loop `{cv : OpenCV} (channel_id : Z)
    (os : list (Oracle file)) (w : World file) P :
  previous_screenshot w = Some P → decode_at w P = None →
  P ∉ captured_paths os →
  previous_screenshot (run channel_id os w) = Some P ∧
  decode_at (run channel_id os w) P = None ∧
  notifications (journal (run channel_id os w)) = notifications (journal w).
Proof.
  revert w. induction os as [|o os IH]; intros w Hp Hd Hnot; [done|].
  simpl.
  destruct (shot o) as [[cur bytes]|e'] eqn:Hs.
  - assert (cur ≠ P ∧ P ∉ captured_paths os) as [Hne Hrest].
    { unfold captured_paths in *. simpl in Hnot. rewrite Hs in Hnot.
      simpl in Hnot. apply not_elem_of_cons in Hnot as [? ?]. done. }
    assert (decode_at (captured w cur bytes) P = None) as Hd'.
    { unfold decode_at, captured in *. simpl. by rewrite lookup_insert_ne. }
    rewrite (tick_load_error channel_id w o P cur bytes Hp Hs (or_introl Hd')).
    simpl.
    destruct (IH (MkWorld (Some P) (delete cur (<[cur := bytes]> (files w)))
                    (journal w ++ [Imread P; Imread cur;
                                   ErrorLogged ValueError; Removed cur])))
      as (IH1 & IH2 & IH3); [done | | done |].
    { unfold decode_at in *. simpl.
      by rewrite lookup_delete_ne, lookup_insert_ne. }
    repeat split; [done | done |].
    rewrite IH3. simpl. rewrite notifications_app. apply app_nil_r.
  - rewrite (tick_capture_failed channel_id w o e' Hs). simpl.
    apply IH; [done | done |].
    unfold captured_paths in *. simpl in Hnot. by rewrite Hs in Hnot.
Qed.

Lemma unreadable_baseline_blocks_loop_witness :
  previous_screenshot (run 7 [small_shot; white_shot; no_display] torn_world)
    = Some "torn.png" ∧
  notifications (journal (run 7 [small_shot; white_shot; no_display]
                            torn_world)) = [].
Proof.
  destruct (unreadable_baseline_blocks_loop (cv := ref_cv) 7
              [small_shot; white_shot; no_display] torn_world "torn.png"
              eq_refl eq_refl) as (Hprev & _ & Hn).
  - unfold captured_paths. simpl.
    rewrite !not_elem_of_cons. repeat split; try (by intros [=]).
    apply not_elem_of_nil.
  - exact (conj Hprev Hn).
Defined.

(** X12. A previous screenshot of at most 25000 pixels silences the tick:
    whatever is captured next (to another path), no message is sent,
    because the count is taken over the grid of the first picture. *)
Theorem small_baseline_never_notifies `{cv : OpenCV} (channel_id : Z)
    (w : World file) o P a :
  previous_screenshot w = Some P → decode_at w P = Some a →
  crows a * ccols a ≤ PIXEL_DIFF_THRESHOLD →
  (∀ bytes, shot o ≠ Returned (P, bytes)) →
  notifications (journal (check_screen_change channel_id o w).2)
    = notifications (journal w).
Proof.
  intros Hp Ha Hsmall Hfresh.
  destruct (shot o) as [[cur bytes]|e'] eqn:Hs.
  - assert (cur ≠ P) as Hne by (intros ->; by apply (Hfresh bytes)).
    assert (decode_at (captured w cur bytes) P = Some a) as Ha'.
    { unfold decode_at, captured in *. simpl. by rewrite lookup_insert_ne. }
    destruct (decode_at (captured w cur bytes) cur) as [b|] eqn:Hb.
    + destruct (differingUnits_le_pixels _ P cur a b Ha' Hb) as (n & Hn & Hle).
      destruct (detect_motion_decoded _ P cur a b Ha' Hb) as (n' & Hn' & Hrun).
      assert (n' = n) as -> by congruence.
      specialize (Hrun PIXEL_DIFF_THRESHOLD).
      rewrite bool_decide_eq_false_2 in Hrun by lia.
      rewrite (tick_no_motion channel_id w o P cur bytes _ Hp Hs Hrun).
      unfold rotated. destruct (_ !! P); simpl;
        rewrite !notifications_app; apply app_nil_r.
    + rewrite (tick_load_error channel_id w o P cur bytes Hp Hs (or_intror Hb)).
      simpl. rewrite notifications_app. apply app_nil_r.
  - by rewrite (tick_capture_failed channel_id w o e' Hs).
Qed.

Lemma small_baseline_never_notifies_witness :
  notifications
    (journal (check_screen_change 7 white_shot
                (MkWorld (Some "black.png") small_disk [])).2) = [].
Proof.
  refine (eq_trans (small_baseline_never_notifies (cv := ref_cv) 7
                      (MkWorld (Some "black.png") small_disk []) white_shot
                      "black.png" (black 2 2) eq_refl eq_refl _ _) eq_refl).
  - unfold PIXEL_DIFF_THRESHOLD. simpl. lia.
  - intros bytes. by intros [=].
Defined.

(** ** Screenshot names *)

Lemma string_length_app (s1 s2 : string) :
  String.length (s1 +:+ s2) = (String.length s1 + String.length s2)%nat.
Proof. induction s1 as [|c s1 IH]; simpl; [done | by rewrite IH]. Qed.

Lemma string_app_inj_r (s1 s2 t : string) : s1 +:+ t = s2 +:+ t → s1 = s2.
Proof.
  revert s2. induction s1 as [|c s1 IH]; intros [|c' s2] H.
  - done.
  - apply (f_equal String.length) in H.
    rewrite (string_length_app "" t), (string_length_app (String c' s2) t) in H.
    simpl in H. lia.
  - apply (f_equal String.length) in H.
    rewrite (string_length_app "" t), (string_length_app (String c s1) t) in H.
    simpl in H. lia.
  - change (String c (s1 +:+ t) = String c' (s2 +:+ t)) in H.
    injection H as -> H. f_equal. by apply IH.
Qed.

(** X13. [capture_screen] names its files injectively: different UUIDs give
    different paths, so captures named from pairwise different UUIDs write
    to pairwise different paths. *)
Theorem screenshot_name_distinct (uuids : list string) :
  NoDup uuids → NoDup (screenshot_name <$> uuids).
Proof.
  intros Hnd. apply NoDup_fmap_2; [|done].
  intros u u' H. unfold screenshot_name in H.
  apply (inj (String.app "current_screen")) in H.
  by apply string_app_inj_r in H.
Qed.

Lemma screenshot_name_distinct_witness :
  NoDup (screenshot_name <$> ["6f1c"; "a2e0"]).
Proof.
  apply screenshot_name_distinct. apply NoDup_cons. split.
  - rewrite list_elem_of_singleton. by intros [=].
  - apply NoDup_singleton.
Defined.

Example screenshot_name_example :
  screenshot_name "6f1c" = "current_screen6f1c.png".
Proof. reflexivity. Qed.

(** ** Files on disk *)

(** X14. No file piles up while ticks return. In steady state, with the
    previous screenshot on disk and the capture written to a new path, a
    tick that returns leaves as many files as it found: either the
    previous one is removed and the capture stays, or the capture is
    removed. Only a tick left by an exception leaves one file more, the
    capture. *)
Theorem returning_tick_keeps_file_count `{cv : OpenCV} (channel_id : Z)
    (w : World file) o P cur bytes :
  previous_screenshot w = Some P → is_Some (files w !! P) →
  files w !! cur = None → shot o = Returned (cur, bytes) →
  ((check_screen_change channel_id o w).1 = Returned () →
   size (files (check_screen_change channel_id o w).2) = size (files w) ∧
   (files (check_screen_change channel_id o w).2 = files w ∨
    files (check_screen_change channel_id o w).2
      = delete P (<[cur := bytes]> (files w)))) ∧
  (∀ e, (check_screen_change channel_id o w).1 = Raised e →
        files (check_screen_change channel_id o w).2
          = <[cur := bytes]> (files w) ∧
        size (files (check_screen_change channel_id o w).2)
          = S (size (files w))).
Proof.
  intros Hp [f Hf] Hfresh Hs.
  assert (P ≠ cur) as Hne by (intros ->; congruence).
  pose proof (tick_steady_outcome channel_id w o P cur bytes Hp Hs) as Hout.
  inversion Hout as [evs Hn Heq | evs Hn Heq | e0 evs He Horigin Hn Heq];
    simpl; (split; [intros Hret | intros e Hraise]); try done.
  - unfold rotated. rewrite lookup_insert_ne, Hf by done. simpl.
    split; [|by right].
    rewrite map_size_delete_Some, map_size_insert_None;
      [done | done | by rewrite lookup_insert_ne].
  - rewrite delete_insert_id by done. split; [done | by left].
  - split; [done|]. by rewrite map_size_insert_None.
Qed.

Lemma returning_tick_keeps_file_count_witness :
  size (files (check_screen_change 7 small_shot torn_world).2)
  = size (files torn_world).
Proof.
  destruct (returning_tick_keeps_file_count (cv := ref_cv) 7 torn_world
              small_shot "torn.png" "shot.png" (Some (black 2 2)) eq_refl)
    as [Hret _]; [by eexists | reflexivity | reflexivity |].
  destruct (Hret eq_refl) as [Hsize _]. exact Hsize.
Defined.

(** X15. A tick in steady state that detects motion while [fetch_channel]
    raises something that is no [discord.HTTPException] keeps the previous
    screenshot and sends nothing. If the exception is a [ValueError],
    [PermissionError] or [ConnectionError], the tick returns and the
    capture is removed; otherwise the exception leaves the tick and the
    capture stays on disk. *)
Theorem unexpected_fetch_error `{cv : OpenCV} (channel_id : Z)
    (w : World file) o P cur bytes a b n e :
  previous_screenshot w = Some P → shot o = Returned (cur, bytes) →
  decode_at (captured w cur bytes) P = Some a →
  decode_at (captured w cur bytes) cur = Some b →
  differingUnits a b = Some n → PIXEL_DIFF_THRESHOLD < Z.of_nat n →
  fetch_channel o = Raised e → is_discord_http e = false →
  previous_screenshot (check_screen_change channel_id o w).2 = Some P ∧
  notifications (journal (check_screen_change channel_id o w).2)
    = notifications (journal w) ∧
  if is_tick_error e
  then (check_screen_change channel_id o w).1 = Returned () ∧
       files (check_screen_change channel_id o w).2 !! cur = None
  else (check_screen_change channel_id o w).1 = Raised e ∧
       files (check_screen_change channel_id o w).2 !! cur = Some bytes.
Proof.
  intros Hp Hs Ha Hb Hn Hlt Hf Hd.
  destruct (detect_motion_decoded _ P cur a b Ha Hb) as (n' & Hn' & Hrun).
  assert (n' = n) as -> by congruence.
  specialize (Hrun PIXEL_DIFF_THRESHOLD).
  rewrite bool_decide_eq_true_2 in Hrun by lia.
  rewrite (tick_fetch_raises channel_id w o P cur bytes _ e Hp Hs Hrun Hf Hd).
  destruct (is_tick_error e); simpl; repeat split.
  - rewrite notifications_app. apply app_nil_r.
  - by rewrite lookup_delete_eq.
  - rewrite notifications_app. apply app_nil_r.
  - by rewrite lookup_insert_eq.
Qed.

Lemma unexpected_fetch_error_witness :
  (check_screen_change 7 channel_garbled steady_world).1 = Raised InvalidData ∧
  files (check_screen_change 7 channel_garbled steady_world).2 !! "after.png"
    = Some (Some (white 160 160)).
Proof.
  destruct steady_world_white_units as (Ha & Hb & Hn & Hlt).
  destruct (unexpected_fetch_error (cv := ref_cv) 7 steady_world
              channel_garbled "before.png" "after.png" (Some (white 160 160))
              (black 160 160) (white 160 160) _ InvalidData
              eq_refl eq_refl Ha Hb Hn Hlt eq_refl eq_refl)
    as (_ & _ & Hret & Hfile).
  exact (conj Hret Hfile).
Defined.
